(** * http-request-to-ffuf: a shallow embedding of the request parser,
      the fuzz-point resolver and the ffuf command builder

    The development follows [http-request-to-ffuf.py].  A Python [str] is
    modelled by a Rocq [string] holding the UTF-8 encoding of the text, one
    [ascii] per byte.  Every separator, keyword and marker the program looks
    for is ASCII, so splitting, searching, comparing and concatenating the
    encodings agrees with the same operation on the code points.

    Python exceptions are modelled by the error monad [result]; every place
    where the source indexes a list, unpacks a tuple, converts with [int] or
    calls [json.loads] can raise in the model exactly as in the source.

    The library functions the program calls ([str.strip], [str.split],
    [int], [urllib.parse.parse_qs], [json.loads]) are modelled after
    CPython 3.11.  The limits of the interpreter are outside the model: the
    recursion depth, which bounds the nesting of a JSON document
    ([RecursionError]), and the limit on the number of digits of an integer
    literal in [int] and [json.loads] ([ValueError]). *)

From Stdlib Require Import String Ascii List Bool Arith NArith ZArith Lia.
From Stdlib Require Import DecimalString.
Import ListNotations.

Set Warnings "-register-all".

Open Scope list_scope.
Open Scope string_scope.

(** ** Exceptions *)

Inductive exn : Type :=
| ValueError
| IndexError
| KeyError
| JSONDecodeError.

Inductive result (A : Type) : Type :=
| Ok (a : A)
| Raise (e : exn).

Arguments Ok {A} a.
Arguments Raise {A} e.

Definition bind {A B : Type} (m : result A) (k : A -> result B) : result B :=
  match m with
  | Ok a => k a
  | Raise e => Raise e
  end.

Notation "x <- m ;; k" := (bind m (fun x => k))
  (at level 61, m at next level, right associativity).
Notation "' p <- m ;; k" := (bind m (fun x => let p := x in k))
  (at level 61, p pattern, m at next level, right associativity).

(** ** Python [str] and [list] primitives *)

Module PyStr.

Definition LF : ascii := "010"%char.
Definition nl : string := String LF "".
(** The double quote character, as a one-character string. *)
Definition dq : string := String "034"%char "".

(** [sub in s] *)
Fixpoint contains (sub s : string) : bool :=
  String.prefix sub s ||
  match s with
  | EmptyString => false
  | String _ s' => contains sub s'
  end.

(** [s.partition(sep)] for a one-character separator: the text before the
    first separator, and the text after it when there is one. *)
Fixpoint partition (sep : ascii) (s : string) : string * option string :=
  match s with
  | EmptyString => (EmptyString, None)
  | String c s' =>
      if Ascii.eqb c sep then (EmptyString, Some s')
      else let (h, t) := partition sep s' in (String c h, t)
  end.

(** [s.split(sep, 1)] *)
Definition split1 (sep : ascii) (s : string) : list string :=
  match partition sep s with
  | (h, None) => [h]
  | (h, Some t) => [h; t]
  end.

(** [s.split(sep)]: the text before the first separator, then the
    fields of the text after it. *)
Fixpoint split (sep : ascii) (s : string) : list string :=
  match s with
  | EmptyString => [EmptyString]
  | String c s' =>
      if Ascii.eqb c sep then EmptyString :: split sep s'
      else match split sep s' with
           | field :: fields => String c field :: fields
           | [] => [String c EmptyString]
           end
  end.

(** [sep.join(l)] *)
Definition join (sep : string) (l : list string) : string :=
  String.concat sep l.

(** [s.replace(a, b)] for one-character [a] and [b]. *)
Fixpoint replace (a b : ascii) (s : string) : string :=
  match s with
  | EmptyString => EmptyString
  | String c s' => String (if Ascii.eqb c a then b else c) (replace a b s')
  end.

Fixpoint rev_acc (s acc : string) : string :=
  match s with
  | EmptyString => acc
  | String c s' => rev_acc s' (String c acc)
  end.

Definition rev (s : string) : string := rev_acc s EmptyString.

(** The white space of [str.strip()]: the code points for which
    [str.isspace()] holds, in UTF-8.  One byte: U+0009..U+000D,
    U+001C..U+0020. *)
Definition isspace1 (c : ascii) : bool :=
  let n := nat_of_ascii c in
  (((9 <=? n) && (n <=? 13)) || ((28 <=? n) && (n <=? 32)))%nat.

(** Two bytes: U+0085 (C2 85) and U+00A0 (C2 A0). *)
Definition isspace2 (c1 c2 : ascii) : bool :=
  ((nat_of_ascii c1 =? 194) &&
   ((nat_of_ascii c2 =? 133) || (nat_of_ascii c2 =? 160)))%nat.

(** Three bytes: U+1680 (E1 9A 80), U+2000..U+200A (E2 80 80..8A),
    U+2028, U+2029 (E2 80 A8, A9), U+202F (E2 80 AF), U+205F (E2 81 9F)
    and U+3000 (E3 80 80). *)
Definition isspace3 (c1 c2 c3 : ascii) : bool :=
  let a := nat_of_ascii c1 in
  let b := nat_of_ascii c2 in
  let c := nat_of_ascii c3 in
  (((a =? 225) && (b =? 154) && (c =? 128)) ||
   ((a =? 226) && (b =? 128) &&
      (((128 <=? c) && (c <=? 138)) || (c =? 168) || (c =? 169) || (c =? 175))) ||
   ((a =? 226) && (b =? 129) && (c =? 159)) ||
   ((a =? 227) && (b =? 128) && (c =? 128)))%nat.

(** White space removed from the left; [sp1] tells which single bytes
    are white space. *)
Fixpoint lstrip_by (sp1 : ascii -> bool) (s : string) : string :=
  match s with
  | String c1 s1 =>
      if sp1 c1 then lstrip_by sp1 s1
      else match s1 with
           | String c2 s2 =>
               if isspace2 c1 c2 then lstrip_by sp1 s2
               else match s2 with
                    | String c3 s3 =>
                        if isspace3 c1 c2 c3 then lstrip_by sp1 s3 else s
                    | EmptyString => s
                    end
           | EmptyString => s
           end
  | EmptyString => s
  end.

(** The same on the reversed text: the bytes of a white-space character
    arrive last byte first. *)
Fixpoint lstrip_rev_by (sp1 : ascii -> bool) (s : string) : string :=
  match s with
  | String c1 s1 =>
      if sp1 c1 then lstrip_rev_by sp1 s1
      else match s1 with
           | String c2 s2 =>
               if isspace2 c2 c1 then lstrip_rev_by sp1 s2
               else match s2 with
                    | String c3 s3 =>
                        if isspace3 c3 c2 c1 then lstrip_rev_by sp1 s3 else s
                    | EmptyString => s
                    end
           | EmptyString => s
           end
  | EmptyString => s
  end.

Definition strip_by (sp1 : ascii -> bool) (s : string) : string :=
  rev (lstrip_rev_by sp1 (rev (lstrip_by sp1 s))).

(** [s.strip()] *)
Definition strip (s : string) : string := strip_by isspace1 s.

(** The single bytes [int] takes for white space: U+0009..U+000D and the
    space, not U+001C..U+001F. *)
Definition isspace1_int (c : ascii) : bool :=
  let n := nat_of_ascii c in
  (((9 <=? n) && (n <=? 13)) || (n =? 32))%nat.

Definition is_digit (c : ascii) : bool :=
  let n := nat_of_ascii c in ((48 <=? n) && (n <=? 57))%nat.

Definition digit_value (c : ascii) : Z := Z.of_nat (nat_of_ascii c - 48).

(** The digits of an integer literal: groups of digits separated by single
    underscores.  [prev] tells whether the character before was a digit;
    [acc] is the value read so far. *)
Fixpoint int_digits (prev : bool) (acc : Z) (s : string) : option Z :=
  match s with
  | EmptyString => if prev then Some acc else None
  | String c s' =>
      if is_digit c then int_digits true (10 * acc + digit_value c)%Z s'
      else if Ascii.eqb c "_"%char then
             if prev then int_digits false acc s' else None
           else None
  end.

(** [int(s)]: white space around, an optional sign, then the digits.
    [None] stands for [ValueError].  The digits are the ASCII digits;
    CPython reads the decimal digits of other scripts as well, which the
    model takes for bad literals. *)
Definition int (s : string) : option Z :=
  match strip_by isspace1_int s with
  | String "+"%char d => int_digits false 0%Z d
  | String "-"%char d => option_map Z.opp (int_digits false 0%Z d)
  | d => int_digits false 0%Z d
  end.

(** [str(n)] for an integer. *)
Definition str_of_int (n : Z) : string :=
  NilZero.string_of_int (Z.to_int n).

(** [str(n)] for an index of [enumerate]. *)
Definition str_of_nat (n : nat) : string :=
  NilZero.string_of_uint (Nat.to_uint n).

(** [l[i]]; a missing index raises [IndexError]. *)
Definition index {A : Type} (l : list A) (i : nat) : result A :=
  match nth_error l i with
  | Some x => Ok x
  | None => Raise IndexError
  end.

(** [a, b = l]; any other length raises [ValueError]. *)
Definition unpack2 {A : Type} (l : list A) : result (A * A) :=
  match l with
  | [a; b] => Ok (a, b)
  | _ => Raise ValueError
  end.

End PyStr.

Import PyStr.

(** ** Dictionaries

    A Python [dict] keeps its keys in insertion order, and assigning to a key
    that is present replaces the value where the key stands. *)

Module Dict.

Definition dict (V : Type) : Type := list (string * V).

(** [k in d] *)
Fixpoint mem {V : Type} (k : string) (d : dict V) : bool :=
  match d with
  | [] => false
  | (k', _) :: d' => String.eqb k' k || mem k d'
  end.

(** [d.get(k)] *)
Fixpoint get {V : Type} (k : string) (d : dict V) : option V :=
  match d with
  | [] => None
  | (k', v) :: d' => if String.eqb k' k then Some v else get k d'
  end.

(** [d[k]]; a missing key raises [KeyError]. *)
Definition item {V : Type} (d : dict V) (k : string) : result V :=
  match get k d with
  | Some v => Ok v
  | None => Raise KeyError
  end.

(** [d[k] = v] *)
Fixpoint set {V : Type} (k : string) (v : V) (d : dict V) : dict V :=
  match d with
  | [] => [(k, v)]
  | (k', v') :: d' =>
      if String.eqb k' k then (k', v) :: d' else (k', v') :: set k v d'
  end.

Definition keys {V : Type} (d : dict V) : list string := map fst d.

End Dict.

Import Dict.

(** ** [urllib.parse] *)

Module Urllib.

Definition hex_value (c : ascii) : option N :=
  let n := N_of_ascii c in
  if ((48 <=? n) && (n <=? 57))%N then Some (n - 48)%N
  else if ((65 <=? n) && (n <=? 70))%N then Some (n - 55)%N
  else if ((97 <=? n) && (n <=? 102))%N then Some (n - 87)%N
  else None.

Definition in_range (lo hi : N) (c : ascii) : bool :=
  ((lo <=? N_of_ascii c) && (N_of_ascii c <=? hi))%N.

(** U+FFFD REPLACEMENT CHARACTER in UTF-8. *)
Definition replacement : string :=
  String (ascii_of_N 239) (String (ascii_of_N 191) (String (ascii_of_N 189) "")).

(** The continuation bytes allowed right after the lead byte [c]. *)
Definition second_byte_ok (c c2 : ascii) : bool :=
  let n := N_of_ascii c in
  if (n =? 224)%N then in_range 160 191 c2
  else if (n =? 237)%N then in_range 128 159 c2
  else if (n =? 240)%N then in_range 144 191 c2
  else if (n =? 244)%N then in_range 128 143 c2
  else in_range 128 191 c2.

(** [bytes.decode('utf-8', 'replace')], read back as UTF-8: a well-formed
    sequence is kept, and each maximal ill-formed part becomes U+FFFD. *)
Fixpoint decode_replace (b : string) : string :=
  match b with
  | EmptyString => EmptyString
  | String c r =>
      if in_range 0 127 c then String c (decode_replace r)
      else if in_range 194 223 c then
        match r with
        | String c2 r2 =>
            if in_range 128 191 c2 then String c (String c2 (decode_replace r2))
            else replacement ++ decode_replace r
        | EmptyString => replacement
        end
      else if in_range 224 239 c then
        match r with
        | String c2 r2 =>
            if second_byte_ok c c2 then
              match r2 with
              | String c3 r3 =>
                  if in_range 128 191 c3
                  then String c (String c2 (String c3 (decode_replace r3)))
                  else replacement ++ decode_replace r2
              | EmptyString => replacement
              end
            else replacement ++ decode_replace r
        | EmptyString => replacement
        end
      else if in_range 240 244 c then
        match r with
        | String c2 r2 =>
            if second_byte_ok c c2 then
              match r2 with
              | String c3 r3 =>
                  if in_range 128 191 c3 then
                    match r3 with
                    | String c4 r4 =>
                        if in_range 128 191 c4
                        then String c (String c2 (String c3 (String c4 (decode_replace r4))))
                        else replacement ++ decode_replace r3
                    | EmptyString => replacement
                    end
                  else replacement ++ decode_replace r2
              | EmptyString => replacement
              end
            else replacement ++ decode_replace r
        | EmptyString => replacement
        end
      else replacement ++ decode_replace r
  end.

(** [unquote] on a text with a percent sign.  The text is cut into runs of
    ASCII characters and runs of other characters; in an ASCII run each
    [%xx] with two hexadecimal digits becomes the byte it names
    ([unquote_to_bytes]) and the bytes of the run are decoded; the other
    runs are kept.  [run] holds the bytes of the current ASCII run, last
    byte first. *)
Fixpoint unquote_runs (s run : string) : string :=
  match s with
  | EmptyString => decode_replace (rev run)
  | String c s' =>
      if in_range 0 127 c then
        if Ascii.eqb c "%"%char then
          match s' with
          | String h1 (String h2 s'') =>
              match hex_value h1, hex_value h2 with
              | Some a, Some b =>
                  unquote_runs s'' (String (ascii_of_N (16 * a + b)) run)
              | _, _ => unquote_runs s' (String c run)
              end
          | _ => unquote_runs s' (String c run)
          end
        else unquote_runs s' (String c run)
      else decode_replace (rev run) ++ String c (unquote_runs s' EmptyString)
  end.

(** [urllib.parse.unquote(s)] *)
Definition unquote (s : string) : string :=
  if negb (contains "%" s) then s else unquote_runs s EmptyString.

(** [urllib.parse.parse_qsl(qs)] with the default arguments: fields
    separated by [&], blank values dropped, no strict parsing. *)
Definition parse_qsl (qs : string) : list (string * string) :=
  let query_args := if String.eqb qs "" then [] else split "&"%char qs in
  flat_map
    (fun name_value =>
       if String.eqb name_value "" then []
       else match split1 "="%char name_value with
            | [n; v] =>
                if negb (String.length v =? 0)%nat
                then [(unquote (replace "+"%char " "%char n),
                       unquote (replace "+"%char " "%char v))]
                else []
            | _ => []
            end)
    query_args.

(** [urllib.parse.parse_qs(qs)]: the values of each name, in a dictionary. *)
Definition parse_qs (qs : string) : dict (list string) :=
  fold_left
    (fun parsed_result '(name, value) =>
       match Dict.get name parsed_result with
       | Some vs => Dict.set name (vs ++ [value])%list parsed_result
       | None => Dict.set name [value] parsed_result
       end)
    (parse_qsl qs) [].

End Urllib.

(** ** [json] *)

Module Json.

(** A decoded JSON document.  A number keeps its literal: the program
    looks only at objects, arrays and keys. *)
Inductive json : Type :=
| JNull
| JBool (b : bool)
| JNumber (literal : string)
| JString (s : string)
| JList (items : list json)
| JDict (items : list (string * json)).

Definition is_ws (c : ascii) : bool :=
  Ascii.eqb c " "%char || Ascii.eqb c "009"%char ||
  Ascii.eqb c "010"%char || Ascii.eqb c "013"%char.

Fixpoint skip_ws (s : string) : string :=
  match s with
  | String c s' => if is_ws c then skip_ws s' else s
  | EmptyString => s
  end.

(** The UTF-8 encoding of a code point; a lone surrogate is encoded like
    any other code point of its range. *)
Definition encode_utf8 (cp : N) : string :=
  let byte (n : N) := ascii_of_N n in
  let cont (n : N) := byte (128 + n mod 64)%N in
  if (cp <? 128)%N then String (byte cp) ""
  else if (cp <? 2048)%N then
    String (byte (192 + cp / 64)%N) (String (cont cp) "")
  else if (cp <? 65536)%N then
    String (byte (224 + cp / 4096)%N)
      (String (cont (cp / 64)%N) (String (cont cp) ""))
  else
    String (byte (240 + cp / 262144)%N)
      (String (cont (cp / 4096)%N)
         (String (cont (cp / 64)%N) (String (cont cp) ""))).

(** Four hexadecimal digits. *)
Definition hex4 (s : string) : option (N * string) :=
  match s with
  | String a (String b (String c (String d r))) =>
      match Urllib.hex_value a, Urllib.hex_value b,
            Urllib.hex_value c, Urllib.hex_value d with
      | Some x, Some y, Some z, Some w =>
          Some (((x * 16 + y) * 16 + z) * 16 + w, r)%N
      | _, _, _, _ => None
      end
  | _ => None
  end.

Definition simple_escape (c : ascii) : option ascii :=
  if Ascii.eqb c "034"%char then Some "034"%char
  else if Ascii.eqb c "\"%char then Some "\"%char
  else if Ascii.eqb c "/"%char then Some "/"%char
  else if Ascii.eqb c "b"%char then Some "008"%char
  else if Ascii.eqb c "f"%char then Some "012"%char
  else if Ascii.eqb c "n"%char then Some "010"%char
  else if Ascii.eqb c "r"%char then Some "013"%char
  else if Ascii.eqb c "t"%char then Some "009"%char
  else None.

(** The [\uXXXX] escape, the backslash and the [u] already read: one code
    point, or the code point of a surrogate pair. *)
Definition unicode_escape (s : string) : option (N * string) :=
  match hex4 s with
  | None => None
  | Some (c, r) =>
      if ((55296 <=? c) && (c <=? 56319))%N then
        match r with
        | String "\"%char (String "u"%char r') =>
            match hex4 r' with
            | Some (c2, r'') =>
                if ((56320 <=? c2) && (c2 <=? 57343))%N
                then Some (65536 + (c - 55296) * 1024 + (c2 - 56320), r'')%N
                else Some (c, r)
            | None => None
            end
        | _ => Some (c, r)
        end
      else Some (c, r)
  end.

(** A string literal, the opening quote already read (strict mode: no
    control character inside). *)
Fixpoint scanstring (fuel : nat) (s : string) : option (string * string) :=
  match fuel with
  | O => None
  | S fuel' =>
      match s with
      | EmptyString => None
      | String c s' =>
          if Ascii.eqb c "034"%char then Some ("", s')
          else if Ascii.eqb c "\"%char then
            match s' with
            | EmptyString => None
            | String e s'' =>
                if Ascii.eqb e "u"%char then
                  match unicode_escape s'' with
                  | Some (cp, r) =>
                      match scanstring fuel' r with
                      | Some (t, r') => Some (encode_utf8 cp ++ t, r')
                      | None => None
                      end
                  | None => None
                  end
                else
                  match simple_escape e with
                  | Some x =>
                      match scanstring fuel' s'' with
                      | Some (t, r') => Some (String x t, r')
                      | None => None
                      end
                  | None => None
                  end
            end
          else if (N_of_ascii c <? 32)%N then None
          else
            match scanstring fuel' s' with
            | Some (t, r') => Some (String c t, r')
            | None => None
            end
      end
  end.

Fixpoint take_digits (s : string) : string * string :=
  match s with
  | String c s' =>
      if is_digit c then let (d, r) := take_digits s' in (String c d, r)
      else (EmptyString, s)
  | EmptyString => (EmptyString, EmptyString)
  end.

(** A number literal: an optional minus sign, [0] or a digit from 1 to 9
    followed by digits, then an optional fraction and an optional
    exponent, each taken only when it has a digit. *)
Definition match_number (s : string) : option (string * string) :=
  let (sign, s1) :=
    match s with
    | String "-"%char r => ("-", r)
    | _ => ("", s)
    end in
  let integer :=
    match s1 with
    | String c r =>
        if Ascii.eqb c "0"%char then Some ("0", r)
        else if is_digit c then let (d, r') := take_digits r in Some (String c d, r')
        else None
    | EmptyString => None
    end in
  match integer with
  | None => None
  | Some (ip, s2) =>
      let (fp, s3) :=
        match s2 with
        | String "."%char r =>
            let (d, r') := take_digits r in
            if String.eqb d "" then ("", s2) else ("." ++ d, r')
        | _ => ("", s2)
        end in
      let (ep, s4) :=
        match s3 with
        | String e r =>
            if Ascii.eqb e "e"%char || Ascii.eqb e "E"%char then
              let (sg, r1) :=
                match r with
                | String "+"%char r1 => ("+", r1)
                | String "-"%char r1 => ("-", r1)
                | _ => ("", r)
                end in
              let (d, r') := take_digits r1 in
              if String.eqb d "" then ("", s3)
              else (String e (sg ++ d), r')
            else ("", s3)
        | EmptyString => ("", s3)
        end in
      Some (sign ++ ip ++ fp ++ ep, s4)
  end.

(** [s] starts with [w]: the rest of [s]. *)
Fixpoint strip_prefix (w s : string) : option string :=
  match w, s with
  | EmptyString, _ => Some s
  | String a w', String b s' =>
      if Ascii.eqb a b then strip_prefix w' s' else None
  | String _ _, EmptyString => None
  end.

(** The scanner: one JSON value at the head of [s], and the rest. *)
Fixpoint scan_once (fuel : nat) (s : string) : option (json * string) :=
  match fuel with
  | O => None
  | S fuel' =>
      match s with
      | EmptyString => None
      | String c r =>
          if Ascii.eqb c "034"%char then
            match scanstring (String.length r) r with
            | Some (t, r') => Some (JString t, r')
            | None => None
            end
          else if Ascii.eqb c "{"%char then
            match skip_ws r with
            | String "}"%char r' => Some (JDict [], r')
            | r' => parse_object fuel' r' []
            end
          else if Ascii.eqb c "["%char then
            match skip_ws r with
            | String "]"%char r' => Some (JList [], r')
            | r' => parse_array fuel' r' []
            end
          else
            match strip_prefix "null" s, strip_prefix "true" s,
                  strip_prefix "false" s, strip_prefix "NaN" s,
                  strip_prefix "Infinity" s, strip_prefix "-Infinity" s with
            | Some r', _, _, _, _, _ => Some (JNull, r')
            | _, Some r', _, _, _, _ => Some (JBool true, r')
            | _, _, Some r', _, _, _ => Some (JBool false, r')
            | _, _, _, Some r', _, _ => Some (JNumber "NaN", r')
            | _, _, _, _, Some r', _ => Some (JNumber "Infinity", r')
            | _, _, _, _, _, Some r' => Some (JNumber "-Infinity", r')
            | _, _, _, _, _, _ =>
                match match_number s with
                | Some (lit, r') => Some (JNumber lit, r')
                | None => None
                end
            end
      end
  end

(** The members of an object from the first key on; [acc] is the
    dictionary built so far. *)
with parse_object (fuel : nat) (s : string) (acc : dict json)
  : option (json * string) :=
  match fuel with
  | O => None
  | S fuel' =>
      match s with
      | String "034"%char r =>
          match scanstring (String.length r) r with
          | None => None
          | Some (key, r1) =>
              match skip_ws r1 with
              | String ":"%char r2 =>
                  match scan_once fuel' (skip_ws r2) with
                  | None => None
                  | Some (val, r3) =>
                      let acc' := Dict.set key val acc in
                      match skip_ws r3 with
                      | String "}"%char r4 => Some (JDict acc', r4)
                      | String ","%char r4 => parse_object fuel' (skip_ws r4) acc'
                      | _ => None
                      end
                  end
              | _ => None
              end
          end
      | _ => None
      end
  end

(** The elements of an array from the first one on; [acc] holds the
    elements read so far. *)
with parse_array (fuel : nat) (s : string) (acc : list json)
  : option (json * string) :=
  match fuel with
  | O => None
  | S fuel' =>
      match scan_once fuel' s with
      | None => None
      | Some (val, r1) =>
          let acc' := (acc ++ [val])%list in
          match skip_ws r1 with
          | String "]"%char r2 => Some (JList acc', r2)
          | String ","%char r2 => parse_array fuel' (skip_ws r2) acc'
          | _ => None
          end
      end
  end.

(** The byte order mark U+FEFF in UTF-8. *)
Definition bom : string :=
  String (ascii_of_N 239) (String (ascii_of_N 187) (String (ascii_of_N 191) "")).

(** [json.loads(s)]: one value with white space around it and nothing
    else; every failure is a [JSONDecodeError]. *)
Definition loads (s : string) : result json :=
  if String.prefix bom s then Raise JSONDecodeError
  else
    match scan_once (2 * String.length s + 2) (skip_ws s) with
    | Some (obj, r) =>
        if String.eqb (skip_ws r) "" then Ok obj else Raise JSONDecodeError
    | None => Raise JSONDecodeError
    end.

End Json.

Import Json.

(** ** [class HTTPRequest] *)

Record HTTPRequest : Type := mkHTTPRequest {
  method : string;
  path : string;
  protocol : string;
  headers : dict string;
  body : string;
  host : string;
  port : option Z;
  url : string;
  content_type : string;
  is_json : bool;
  is_form : bool;
  is_multipart : bool
}.

(** [HTTPRequest.__init__] *)
Definition HTTPRequest_init : HTTPRequest :=
  {| method := ""; path := ""; protocol := ""; headers := []; body := "";
     host := ""; port := None; url := ""; content_type := "";
     is_json := false; is_form := false; is_multipart := false |}.

Definition set_request_line (m p v : string) (r : HTTPRequest) : HTTPRequest :=
  {| method := m; path := p; protocol := v; headers := headers r;
     body := body r; host := host r; port := port r; url := url r;
     content_type := content_type r; is_json := is_json r;
     is_form := is_form r; is_multipart := is_multipart r |}.

Definition set_headers (h : dict string) (r : HTTPRequest) : HTTPRequest :=
  {| method := method r; path := path r; protocol := protocol r; headers := h;
     body := body r; host := host r; port := port r; url := url r;
     content_type := content_type r; is_json := is_json r;
     is_form := is_form r; is_multipart := is_multipart r |}.

Definition set_body (b : string) (r : HTTPRequest) : HTTPRequest :=
  {| method := method r; path := path r; protocol := protocol r;
     headers := headers r; body := b; host := host r; port := port r;
     url := url r; content_type := content_type r; is_json := is_json r;
     is_form := is_form r; is_multipart := is_multipart r |}.

Definition set_host (h : string) (r : HTTPRequest) : HTTPRequest :=
  {| method := method r; path := path r; protocol := protocol r;
     headers := headers r; body := body r; host := h; port := port r;
     url := url r; content_type := content_type r; is_json := is_json r;
     is_form := is_form r; is_multipart := is_multipart r |}.

Definition set_port (p : option Z) (r : HTTPRequest) : HTTPRequest :=
  {| method := method r; path := path r; protocol := protocol r;
     headers := headers r; body := body r; host := host r; port := p;
     url := url r; content_type := content_type r; is_json := is_json r;
     is_form := is_form r; is_multipart := is_multipart r |}.

Definition set_url (u : string) (r : HTTPRequest) : HTTPRequest :=
  {| method := method r; path := path r; protocol := protocol r;
     headers := headers r; body := body r; host := host r; port := port r;
     url := u; content_type := content_type r; is_json := is_json r;
     is_form := is_form r; is_multipart := is_multipart r |}.

Definition set_content_type (ct : string) (j f m : bool) (r : HTTPRequest)
  : HTTPRequest :=
  {| method := method r; path := path r; protocol := protocol r;
     headers := headers r; body := body r; host := host r; port := port r;
     url := url r; content_type := ct; is_json := j; is_form := f;
     is_multipart := m |}.

(** The header loop of [parse_request]: [for i, line in enumerate(lines[1:], 1)].
    The result is the headers and [body_start], which stays 0 when no empty
    line ends the headers. *)
Fixpoint parse_header_lines (i : nat) (lines : list string) (hdrs : dict string)
  : result (dict string * nat) :=
  match lines with
  | [] => Ok (hdrs, 0)
  | line :: rest =>
      let line := strip line in
      if String.eqb line "" then Ok (hdrs, i + 1)
      else if contains ":" line then
        '(header_name, header_value) <- unpack2 (split1 ":"%char line) ;;
        parse_header_lines (S i) rest
          (Dict.set (strip header_name) (strip header_value) hdrs)
      else parse_header_lines (S i) rest hdrs
  end.

(** [int(s)], raising [ValueError]. *)
Definition int_or_raise (s : string) : result Z :=
  match PyStr.int s with
  | Some n => Ok n
  | None => Raise ValueError
  end.

(** [f":{self.port}" if self.port and self.port not in (80, 443) else ""]:
    [None] and [0] are both false in a condition. *)
Definition port_suffix (p : option Z) : string :=
  match p with
  | Some n =>
      if negb (n =? 0)%Z && negb ((n =? 80)%Z || (n =? 443)%Z)
      then ":" ++ str_of_int n
      else ""
  | None => ""
  end.

(** ["https" if self.port == 443 else "http"] *)
Definition scheme_of (p : option Z) : string :=
  match p with
  | Some n => if (n =? 443)%Z then "https" else "http"
  | None => "http"
  end.

(** The block [if 'Host' in self.headers: ...] of [parse_request]. *)
Definition parse_host (self : HTTPRequest) : result HTTPRequest :=
  if Dict.mem "Host" (headers self) then
    h <- Dict.item (headers self) "Host" ;;
    let self := set_host h self in
    self <- (if contains ":" (host self) then
               let host_parts := split ":"%char (host self) in
               h0 <- index host_parts 0 ;;
               let self := set_host h0 self in
               p1 <- index host_parts 1 ;;
               n <- int_or_raise p1 ;;
               Ok (set_port (Some n) self)
             else Ok self) ;;
    let protocol := scheme_of (port self) in
    let port_str := port_suffix (port self) in
    Ok (set_url (protocol ++ "://" ++ host self ++ port_str ++ path self) self)
  else Ok self.

(** The block [if 'Content-Type' in self.headers: ...] of [parse_request]. *)
Definition parse_content_type (self : HTTPRequest) : result HTTPRequest :=
  if Dict.mem "Content-Type" (headers self) then
    ct <- Dict.item (headers self) "Content-Type" ;;
    Ok (set_content_type ct
          (contains "application/json" ct)
          (contains "application/x-www-form-urlencoded" ct)
          (contains "multipart/form-data" ct) self)
  else Ok self.

(** [HTTPRequest.parse_request] *)
Definition parse_request (self : HTTPRequest) (request_text : string)
  : result HTTPRequest :=
  let lines := split LF (strip request_text) in
  l0 <- index lines 0 ;;
  let request_line := strip l0 in
  let parts := split " "%char request_line in
  self <- (if (3 <=? List.length parts)%nat then
             p0 <- index parts 0 ;;
             p1 <- index parts 1 ;;
             p2 <- index parts 2 ;;
             Ok (set_request_line p0 p1 p2 self)
           else Ok self) ;;
  '(hdrs, body_start) <- parse_header_lines 1 (skipn 1 lines) (headers self) ;;
  let self := set_headers hdrs self in
  self <- parse_host self ;;
  let self :=
    if ((0 <? body_start) && (body_start <? List.length lines))%nat
    then set_body (join nl (skipn body_start lines)) self
    else self in
  parse_content_type self.

(** ** [class FuzzerGenerator] *)

(** The values of [fuzz_location]. *)
Inductive location : Type :=
| url_param
| body_param
| json_field
| header
| cookie.

Record FuzzerGenerator : Type := mkFuzzerGenerator {
  request : HTTPRequest;
  param_to_fuzz : string;
  wordlist : string;
  fuzz_location : option location;
  fuzz_position : option string
}.

(** [FuzzerGenerator.__init__] *)
Definition FuzzerGenerator_init (http_request : HTTPRequest)
    (param wl : string) : FuzzerGenerator :=
  {| request := http_request; param_to_fuzz := param; wordlist := wl;
     fuzz_location := None; fuzz_position := None |}.

Definition set_fuzz_location (l : location) (g : FuzzerGenerator)
  : FuzzerGenerator :=
  {| request := request g; param_to_fuzz := param_to_fuzz g;
     wordlist := wordlist g; fuzz_location := Some l;
     fuzz_position := fuzz_position g |}.

Definition set_fuzz_position (p : string) (g : FuzzerGenerator)
  : FuzzerGenerator :=
  {| request := request g; param_to_fuzz := param_to_fuzz g;
     wordlist := wordlist g; fuzz_location := fuzz_location g;
     fuzz_position := Some p |}.

(** [isinstance(value, (dict, list))] *)
Definition is_container (j : json) : bool :=
  match j with
  | JDict _ | JList _ => true
  | _ => false
  end.

(** The recursion of [_find_json_param].  The source returns [True] exactly
    where it has just assigned [self.fuzz_position = new_path]; the result
    here is that path, and [None] where the source returns [False]. *)
Fixpoint find_json_path (json_obj : json) (param path : string)
  : option string :=
  match json_obj with
  | JDict items =>
      (fix items_loop (kvs : list (string * json)) : option string :=
         match kvs with
         | [] => None
         | (key, value) :: rest =>
             let new_path :=
               if negb (String.eqb path "") then path ++ "." ++ key else key in
             if String.eqb key param then Some new_path
             else
               match (if is_container value
                      then find_json_path value param new_path
                      else None) with
               | Some found => Some found
               | None => items_loop rest
               end
         end) items
  | JList items =>
      (fix enumerate_loop (i : nat) (l : list json) : option string :=
         match l with
         | [] => None
         | item :: rest =>
             let new_path := path ++ "[" ++ str_of_nat i ++ "]" in
             match (if is_container item
                    then find_json_path item param new_path
                    else None) with
             | Some found => Some found
             | None => enumerate_loop (S i) rest
             end
         end) 0%nat items
  | _ => None
  end.

(** [FuzzerGenerator._find_json_param] *)
Definition _find_json_param (self : FuzzerGenerator) (json_obj : json)
    (param path : string) : bool * FuzzerGenerator :=
  match find_json_path json_obj param path with
  | Some new_path => (true, set_fuzz_position new_path self)
  | None => (false, self)
  end.

(** The cookie loop of [find_param_location]: [True] at the first cookie
    named [param]. *)
Fixpoint find_cookie (cookies : list string) (param : string) : result bool :=
  match cookies with
  | [] => Ok false
  | c :: rest =>
      if contains "=" c then
        n <- index (split "="%char c) 0 ;;
        let name := strip n in
        if String.eqb name param then Ok true else find_cookie rest param
      else find_cookie rest param
  end.

(** [FuzzerGenerator.find_param_location] *)
Definition find_param_location (self : FuzzerGenerator)
  : result (bool * FuzzerGenerator) :=
  let req := request self in
  in_url <- (if contains "?" (path req) then
               '(_, query) <- unpack2 (split1 "?"%char (path req)) ;;
               let params := Urllib.parse_qs query in
               Ok (Dict.mem (param_to_fuzz self) params)
             else Ok false) ;;
  if in_url then Ok (true, set_fuzz_location url_param self)
  else
    let in_body :=
      if is_form req && negb (String.eqb (body req) "") then
        let params := Urllib.parse_qs (body req) in
        Dict.mem (param_to_fuzz self) params
      else false in
    if in_body then Ok (true, set_fuzz_location body_param self)
    else
      in_json <- (if is_json req && negb (String.eqb (body req) "") then
                    match Json.loads (body req) with
                    | Ok json_body =>
                        Ok (_find_json_param self json_body (param_to_fuzz self) "")
                    | Raise JSONDecodeError => Ok (false, self)
                    | Raise e => Raise e
                    end
                  else Ok (false, self)) ;;
      let (found, self') := in_json in
      if found then Ok (true, set_fuzz_location json_field self')
      else
        if Dict.mem (param_to_fuzz self) (headers req)
        then Ok (true, set_fuzz_location header self)
        else
          if Dict.mem "Cookie" (headers req) then
            v <- Dict.item (headers req) "Cookie" ;;
            in_cookie <- find_cookie (split ";"%char v) (param_to_fuzz self) ;;
            if in_cookie then Ok (true, set_fuzz_location cookie self)
            else Ok (false, self)
          else Ok (false, self).

Fixpoint mapM {A B : Type} (f : A -> result B) (l : list A) : result (list B) :=
  match l with
  | [] => Ok []
  | x :: l' => y <- f x ;; ys <- mapM f l' ;; Ok (y :: ys)
  end.

(** The body of the loops over [query.split('&')] and [body.split('&')]. *)
Definition fuzz_field (target param : string) : result string :=
  if contains "=" param then
    '(name, _) <- unpack2 (split1 "="%char param) ;;
    if String.eqb name target then Ok (name ++ "=FUZZ") else Ok param
  else Ok param.

(** The body of the loop over [value.split(';')]. *)
Definition fuzz_cookie (target c : string) : result string :=
  if contains "=" c then
    '(cookie_name, _) <- unpack2 (split1 "="%char c) ;;
    let cookie_name := strip cookie_name in
    if String.eqb cookie_name target then Ok (cookie_name ++ "=FUZZ")
    else Ok (strip c)
  else Ok (strip c).

Definition location_eqb (a b : location) : bool :=
  match a, b with
  | url_param, url_param | body_param, body_param | json_field, json_field
  | header, header | cookie, cookie => true
  | _, _ => false
  end.

(** The [-u] part of the command. *)
Definition url_part (self : FuzzerGenerator) (loc : location) : result string :=
  let req := request self in
  if location_eqb loc url_param then
    '(pth, query) <- unpack2 (split1 "?"%char (path req)) ;;
    params <- mapM (fuzz_field (param_to_fuzz self)) (split "&"%char query) ;;
    let new_path := pth ++ "?" ++ join "&" params in
    let url_parts := split1 "?"%char (url req) in
    base_url <- index url_parts 0 ;;
    Ok ("-u " ++ dq ++ base_url ++ new_path ++ dq)
  else Ok ("-u " ++ dq ++ url req ++ dq).

(** The [-H] part of one header. *)
Definition header_part (self : FuzzerGenerator) (loc : location)
    (name value : string) : result string :=
  if location_eqb loc header && String.eqb name (param_to_fuzz self) then
    Ok ("-H " ++ dq ++ name ++ ": FUZZ" ++ dq)
  else if location_eqb loc cookie && String.eqb name "Cookie" then
    cookies <- mapM (fuzz_cookie (param_to_fuzz self)) (split ";"%char value) ;;
    Ok ("-H " ++ dq ++ "Cookie: " ++ join "; " cookies ++ dq)
  else Ok ("-H " ++ dq ++ name ++ ": " ++ value ++ dq).

(** [self.request.method in ('POST', 'PUT', 'PATCH')] *)
Definition sends_body (m : string) : bool :=
  String.eqb m "POST" || String.eqb m "PUT" || String.eqb m "PATCH".

(** [str(self.fuzz_position)] inside the f-string of the [-json] part. *)
Definition str_of_position (p : option string) : string :=
  match p with
  | Some s => s
  | None => "None"
  end.

(** The parts the body adds to the command. *)
Definition body_parts (self : FuzzerGenerator) (loc : location)
  : result (list string) :=
  let req := request self in
  if negb (String.eqb (body req) "") && sends_body (method req) then
    if location_eqb loc body_param && is_form req then
      params <- mapM (fuzz_field (param_to_fuzz self)) (split "&"%char (body req)) ;;
      Ok ["-d " ++ dq ++ body req ++ dq]
    else if location_eqb loc json_field && is_json req then
      Ok ["-d '" ++ body req ++ "'";
          "-mode pitchfork";
          "-json '" ++ str_of_position (fuzz_position self) ++ ":FUZZ'"]
    else Ok ["-d '" ++ body req ++ "'"]
  else Ok [].

(** The list [cmd_parts] at the end of [generate_ffuf_command]. *)
Definition cmd_parts (self : FuzzerGenerator) : result (list string) :=
  match fuzz_location self with
  | None => Raise ValueError
  | Some loc =>
      let req := request self in
      u <- url_part self loc ;;
      hs <- mapM (fun '(name, value) => header_part self loc name value)
              (headers req) ;;
      bs <- body_parts self loc ;;
      let head := ["ffuf -w " ++ wordlist self; "-X " ++ method req; u] in
      Ok (head ++ hs ++ bs)%list
  end.

(** [FuzzerGenerator.generate_ffuf_command] *)
Definition generate_ffuf_command (self : FuzzerGenerator) : result string :=
  parts <- cmd_parts self ;;
  Ok (join " " parts).

(** * The vocabulary of the specification *)

(** ** Request parser *)

(** The lines of the request text, as [parse_request] cuts them. *)
Definition request_lines (request_text : string) : list string :=
  split LF (strip request_text).

(** The tokens of the request line. *)
Definition request_line_tokens (request_text : string) : list string :=
  split " "%char (strip (nth 0 (request_lines request_text) "")).

(** The headers of a request text: what the header loop of [parse_request]
    leaves in the dictionary of a fresh request. *)
Definition header_block (request_text : string) : dict string :=
  match parse_header_lines 1 (skipn 1 (request_lines request_text)) [] with
  | Ok (hdrs, _) => hdrs
  | Raise _ => []
  end.

(** The text [parse_request] hands to [int]: the second field of the Host
    value cut at the colons. *)
Definition port_text (host_value : string) : string :=
  nth 1 (split ":"%char host_value) "".

(** The Host value has a colon and the text after it is no integer
    literal. *)
Definition bad_host_port (hdrs : dict string) : bool :=
  match Dict.get "Host" hdrs with
  | Some h =>
      contains ":" h &&
      match PyStr.int (port_text h) with
      | Some _ => false
      | None => true
      end
  | None => false
  end.


(** The value of a computation that did not raise. *)
Definition ok_value {A : Type} (m : result A) : option A :=
  match m with
  | Ok a => Some a
  | Raise _ => None
  end.

Definition url_and_port (r : HTTPRequest) : string * option Z :=
  (url r, port r).

(** The closed set of content-type classes of the specification. *)
Inductive contentTypeClass : Type :=
| ct_none
| ct_json
| ct_form_urlencoded
| ct_multipart
| ct_other.

(** The classification in the specification's words: the first of the three
    substrings found in the Content-Type value, in the order json,
    form-urlencoded, multipart; [ct_other] when the header is there and none
    is found; [ct_none] without the header. *)
Definition classify (hdrs : dict string) : contentTypeClass :=
  match Dict.get "Content-Type" hdrs with
  | None => ct_none
  | Some v =>
      if contains "application/json" v then ct_json
      else if contains "application/x-www-form-urlencoded" v then ct_form_urlencoded
      else if contains "multipart/form-data" v then ct_multipart
      else ct_other
  end.

(** The specification's sentence on the classification, as it is written:
    a parsed request is in exactly one class, so each flag of the request
    is set exactly when the request is in the class of that flag. *)
Definition spec_content_type_exclusive : Prop :=
  forall (request_text : string) (r : HTTPRequest),
    parse_request HTTPRequest_init request_text = Ok r ->
    (is_json r = true <-> classify (headers r) = ct_json) /\
    (is_form r = true <-> classify (headers r) = ct_form_urlencoded) /\
    (is_multipart r = true <-> classify (headers r) = ct_multipart).

(** A request announcing two content types at once. *)
Definition two_content_types : string :=
  "POST /login HTTP/1.1" ++ nl ++
  "Host: example.com" ++ nl ++
  "Content-Type: application/json, application/x-www-form-urlencoded" ++ nl ++
  nl ++
  "a=1".


(** A request to port 0. *)
Definition port_zero_request : string :=
  "GET / HTTP/1.1" ++ nl ++ "Host: example.com:0".

(** ** Fuzz-point resolver *)

(** The resolution result of the specification. *)
Inductive FuzzTarget : Type :=
| UrlQueryParam
| FormBodyParam
| JsonField (json_path : string)
| Header
| Cookie.

(** The target a generator has recorded in [fuzz_location] and
    [fuzz_position]. *)
Definition target_of (g : FuzzerGenerator) : option FuzzTarget :=
  match fuzz_location g with
  | Some url_param => Some UrlQueryParam
  | Some body_param => Some FormBodyParam
  | Some json_field =>
      match fuzz_position g with
      | Some p => Some (JsonField p)
      | None => None
      end
  | Some header => Some Header
  | Some cookie => Some Cookie
  | None => None
  end.

(** [resolve(request, paramName)]: the target [find_param_location] leaves
    in the generator, [None] for "not found". *)
Definition resolve (self : FuzzerGenerator) : result (option FuzzTarget) :=
  '(found, self') <- find_param_location self ;;
  Ok (if found : bool then target_of self' else None).

(** A query string names [p]: one of its fields, cut at the [&], reads
    [name=value] with a value that is not blank and a name that decodes
    to [p]. *)
Definition names_param (qs p : string) : Prop :=
  exists field name value,
    In field (split "&"%char qs) /\
    field = name ++ "=" ++ value /\
    contains "=" name = false /\
    value <> "" /\
    Urllib.unquote (replace "+"%char " "%char name) = p.

(** 1. URL query parameters. *)
Definition in_url_query (r : HTTPRequest) (p : string) : Prop :=
  exists before query,
    path r = before ++ "?" ++ query /\
    contains "?" before = false /\
    In p (Dict.keys (Urllib.parse_qs query)).

(** 2. Form body parameters. *)
Definition in_form_body (r : HTTPRequest) (p : string) : Prop :=
  is_form r = true /\ body r <> "" /\
  In p (Dict.keys (Urllib.parse_qs (body r))).

(** 3. JSON body field, found at [json_path]. *)
Definition in_json_body (r : HTTPRequest) (p json_path : string) : Prop :=
  is_json r = true /\ body r <> "" /\
  exists document,
    Json.loads (body r) = Ok document /\
    find_json_path document p "" = Some json_path.

(** 4. Header, by its exact name. *)
Definition in_headers (r : HTTPRequest) (p : string) : Prop :=
  In p (Dict.keys (headers r)).

(** 5. Cookie: a segment of the Cookie value, cut at the [;], with an [=]
    and the trimmed text before its first [=] equal to [p]. *)
Definition in_cookies (r : HTTPRequest) (p : string) : Prop :=
  exists v segment name rest,
    Dict.get "Cookie" (headers r) = Some v /\
    In segment (split ";"%char v) /\
    segment = name ++ "=" ++ rest /\
    contains "=" name = false /\
    strip name = p.

(** The fixed priority of the five locations: the first one holding the
    parameter gives the target. *)
Inductive resolves (r : HTTPRequest) (p : string) : option FuzzTarget -> Prop :=
| resolves_url :
    in_url_query r p ->
    resolves r p (Some UrlQueryParam)
| resolves_form :
    ~ in_url_query r p ->
    in_form_body r p ->
    resolves r p (Some FormBodyParam)
| resolves_json (json_path : string) :
    ~ in_url_query r p ->
    ~ in_form_body r p ->
    in_json_body r p json_path ->
    resolves r p (Some (JsonField json_path))
| resolves_header :
    ~ in_url_query r p ->
    ~ in_form_body r p ->
    (forall json_path, ~ in_json_body r p json_path) ->
    in_headers r p ->
    resolves r p (Some Header)
| resolves_cookie :
    ~ in_url_query r p ->
    ~ in_form_body r p ->
    (forall json_path, ~ in_json_body r p json_path) ->
    ~ in_headers r p ->
    in_cookies r p ->
    resolves r p (Some Cookie)
| resolves_nowhere :
    ~ in_url_query r p ->
    ~ in_form_body r p ->
    (forall json_path, ~ in_json_body r p json_path) ->
    ~ in_headers r p ->
    ~ in_cookies r p ->
    resolves r p None.

(** The six outcomes of [find_param_location], none of them an
    exception. *)
Inductive find_outcome (self : FuzzerGenerator)
  : option FuzzTarget -> result (bool * FuzzerGenerator) -> Prop :=
| found_url :
    find_outcome self (Some UrlQueryParam)
      (Ok (true, set_fuzz_location url_param self))
| found_form :
    find_outcome self (Some FormBodyParam)
      (Ok (true, set_fuzz_location body_param self))
| found_json (json_path : string) :
    find_outcome self (Some (JsonField json_path))
      (Ok (true, set_fuzz_location json_field (set_fuzz_position json_path self)))
| found_header :
    find_outcome self (Some Header)
      (Ok (true, set_fuzz_location header self))
| found_cookie :
    find_outcome self (Some Cookie)
      (Ok (true, set_fuzz_location cookie self))
| found_nowhere :
    find_outcome self None (Ok (false, self)).

(** The specification's sentence on blank query values, as it is written:
    a query with a field [p=] and no occurrence of [p] in the other four
    locations resolves to "not found". *)
Definition spec_blank_value_not_found : Prop :=
  forall (self : FuzzerGenerator) (before query : string),
    let r := request self in
    let p := param_to_fuzz self in
    path r = before ++ "?" ++ query ->
    contains "?" before = false ->
    In (p ++ "=") (split "&"%char query) ->
    ~ in_form_body r p ->
    (forall json_path, ~ in_json_body r p json_path) ->
    ~ in_headers r p ->
    ~ in_cookies r p ->
    resolve self = Ok None.

(** A request with nothing but a request target. *)
Definition bare_request (target : string) : HTTPRequest :=
  {| method := "GET"; path := target; protocol := "HTTP/1.1"; headers := [];
     body := ""; host := ""; port := None; url := ""; content_type := "";
     is_json := false; is_form := false; is_multipart := false |}.

(** ** Command builder *)

(** A field of a query string and its rewriting: a field [target=value]
    becomes [target=FUZZ], every other field stays as it is.  The name of a
    field ends at its first [=]. *)
Definition fuzzed_segment (target segment segment' : string) : Prop :=
  (exists value,
      segment = target ++ "=" ++ value /\ contains "=" target = false /\
      segment' = target ++ "=FUZZ") \/
  (~ (exists value,
         segment = target ++ "=" ++ value /\ contains "=" target = false) /\
   segment' = segment).

(** [request.url] up to its own [?], if any. *)
Definition base_url (r : HTTPRequest) : string :=
  fst (partition "?"%char (url r)).

(** A segment of the Cookie value and its rewriting: cut at the first [=];
    when the trimmed name is the target the value becomes [FUZZ]; every
    other segment is trimmed. *)
Definition rebuild_cookie_segment (target segment : string) : string :=
  match partition "="%char segment with
  | (name, Some _) =>
      if String.eqb (strip name) target then strip name ++ "=FUZZ"
      else strip segment
  | (_, None) => strip segment
  end.

(** The rebuilt Cookie value: cut at the [;], rewritten, joined by [; ]. *)
Definition rebuild_cookie (target value : string) : string :=
  join "; " (map (rebuild_cookie_segment target) (split ";"%char value)).

(** The header flag of the command for one header. *)
Definition header_flag (target : string) (loc : location)
    (name_value : string * string) : string :=
  let (name, value) := name_value in
  if location_eqb loc header && String.eqb name target then
    "-H " ++ dq ++ name ++ ": FUZZ" ++ dq
  else if location_eqb loc cookie && String.eqb name "Cookie" then
    "-H " ++ dq ++ "Cookie: " ++ rebuild_cookie target value ++ dq
  else "-H " ++ dq ++ name ++ ": " ++ value ++ dq.

(** ** The JSON example *)

(** The keys of a document, each with its path, in the order of a
    depth-first walk: the keys of an object in their order, each before the
    keys below it; the elements of an array by index.  The path of a key of
    the document itself is the key; below a path it is the path, a dot and
    the key; the path of the element [i] of an array is the path of the
    array followed by [i] in brackets. *)
Fixpoint key_paths (document : json) (path : string) : list (string * string) :=
  match document with
  | JDict items =>
      (fix members (kvs : list (string * json)) : list (string * string) :=
         match kvs with
         | [] => []
         | (key, value) :: rest =>
             let here :=
               if negb (String.eqb path "") then path ++ "." ++ key else key in
             ((key, here) :: key_paths value here ++ members rest)%list
         end) items
  | JList items =>
      (fix elements (i : nat) (l : list json) : list (string * string) :=
         match l with
         | [] => []
         | item :: rest =>
             (key_paths item (path ++ "[" ++ str_of_nat i ++ "]") ++
              elements (S i) rest)%list
         end) 0%nat items
  | _ => []
  end.

(** The body [{"user":{"id":42}}]. *)
Definition user_id_body : string :=
  "{" ++ dq ++ "user" ++ dq ++ ":{" ++ dq ++ "id" ++ dq ++ ":42}}".

(** The last three parts of a command that fuzzes the field [user.id]. *)
Definition user_id_parts : list string :=
  ["-d '" ++ user_id_body ++ "'"; "-mode pitchfork"; "-json 'user.id:FUZZ'"].

(** The specification's sentence on the JSON example, as it is written, in
    two halves: a request with the JSON flag, the body [user_id_body] and
    the target [id] resolves to the JSON field [user.id] ... *)
Definition spec_json_example_resolves : Prop :=
  forall self : FuzzerGenerator,
    is_json (request self) = true ->
    body (request self) = user_id_body ->
    param_to_fuzz self = "id" ->
    resolve self = Ok (Some (JsonField "user.id")).

(** ... and the command built for it ends with the body as the data
    payload, the pitchfork mode and the JSON path [user.id:FUZZ]. *)
Definition spec_json_example_command : Prop :=
  forall self self' : FuzzerGenerator,
    is_json (request self) = true ->
    body (request self) = user_id_body ->
    param_to_fuzz self = "id" ->
    find_param_location self = Ok (true, self') ->
    exists before, cmd_parts self' = Ok (before ++ user_id_parts)%list.

(** A request with the JSON flag and the body [user_id_body]. *)
Definition json_request (verb target : string) : HTTPRequest :=
  {| method := verb; path := target; protocol := "HTTP/1.1";
     headers := [("Host", "example.com"); ("Content-Type", "application/json")];
     body := user_id_body; host := "example.com"; port := None;
     url := "http://example.com" ++ target; content_type := "application/json";
     is_json := true; is_form := false; is_multipart := false |}.

(** ** Example generators *)


(** The query [q=1&p=], fuzzing [p]. *)
Definition blank_value_generator : FuzzerGenerator :=
  FuzzerGenerator_init (bare_request "/s?q=1&p=") "p" "words.txt".

(** The query [p=&p=1], fuzzing [p]. *)
Definition blank_then_value_generator : FuzzerGenerator :=
  FuzzerGenerator_init (bare_request "/s?p=&p=1") "p" "words.txt".


(** The header [Cookie: session=abc123; theme=dark], fuzzing [session]. *)
Definition cookie_generator : FuzzerGenerator :=
  FuzzerGenerator_init
    {| method := "GET"; path := "/home"; protocol := "HTTP/1.1";
       headers := [("Host", "example.com");
                   ("Cookie", "session=abc123; theme=dark")];
       body := ""; host := "example.com"; port := None;
       url := "http://example.com/home"; content_type := "";
       is_json := false; is_form := false; is_multipart := false |}
    "session" "words.txt".


(** The JSON example sent with POST, with GET, and with [id] in the URL
    query, fuzzing [id]. *)
Definition user_id_generator : FuzzerGenerator :=
  FuzzerGenerator_init (json_request "POST" "/users") "id" "words.txt".

Definition user_id_get_generator : FuzzerGenerator :=
  FuzzerGenerator_init (json_request "GET" "/users") "id" "words.txt".

Definition user_id_query_generator : FuzzerGenerator :=
  FuzzerGenerator_init (json_request "POST" "/users?id=7") "id" "words.txt".

(** * Further vocabulary *)

(** The request after the request line is read: three tokens or more fill
    method, path and protocol. *)
Definition after_request_line (request_text : string) : HTTPRequest :=
  let tokens := request_line_tokens request_text in
  if (3 <=? List.length tokens)%nat
  then set_request_line (nth 0 tokens "") (nth 1 tokens "") (nth 2 tokens "")
         HTTPRequest_init
  else HTTPRequest_init.

(** [body_start] of a request text: what the header loop of
    [parse_request] returns beside the headers. *)
Definition body_start_of (request_text : string) : nat :=
  match parse_header_lines 1 (skipn 1 (request_lines request_text)) [] with
  | Ok (_, body_start) => body_start
  | Raise _ => 0
  end.

(** The name and the value a header line contributes. *)
Definition header_pair (line : string) : option (string * string) :=
  match partition ":"%char (strip line) with
  | (name, Some value) => Some (strip name, strip value)
  | (_, None) => None
  end.

(** The pairs of the header lines, in the order of the lines, up to the
    first blank line. *)
Fixpoint header_pairs (lines : list string) : list (string * string) :=
  match lines with
  | [] => []
  | line :: rest =>
      if String.eqb (strip line) "" then []
      else match header_pair line with
           | Some kv => kv :: header_pairs rest
           | None => header_pairs rest
           end
  end.

(** The names of a list of pairs, each at its first occurrence. *)
Fixpoint first_occurrences (names : list string) (seen : list string)
  : list string :=
  match names with
  | [] => []
  | n :: rest =>
      if existsb (String.eqb n) seen then first_occurrences rest seen
      else n :: first_occurrences rest (n :: seen)
  end.

(** A request whose Host header has two colons, and one whose request
    line has two spaces in a row. *)
Definition two_colon_request : string :=
  "GET /a HTTP/1.1" ++ nl ++ "Host: example.com:8080:x".

Definition double_space_request : string :=
  "GET  /a HTTP/1.1" ++ nl ++ "Host: example.com".

(** A request that repeats a header, and one with a body of two lines. *)
Definition repeated_header_request : string :=
  "GET / HTTP/1.1" ++ nl ++ "Accept: a" ++ nl ++ "Host: h" ++ nl ++
  "Accept: b".

(** A request whose header line has white space around the name and the
    value. *)
Definition padded_header_request : string :=
  "GET / HTTP/1.1" ++ nl ++ "  X-Token :   abc:def  ".


(** An object of the document, at any depth, has the key. *)
Inductive has_key (key : string) : json -> Prop :=
| has_key_here (items : list (string * json)) (value : json) :
    In (key, value) items ->
    has_key key (JDict items)
| has_key_below (items : list (string * json)) (k : string) (value : json) :
    In (k, value) items ->
    has_key key value ->
    has_key key (JDict items)
| has_key_element (items : list json) (item : json) :
    In item items ->
    has_key key item ->
    has_key key (JList items).

(** The parts the body adds to a command, by target. *)
Definition payload_of (r : HTTPRequest) (t : FuzzTarget) : list string :=
  if negb (String.eqb (body r) "") && sends_body (method r) then
    match t with
    | FormBodyParam => ["-d " ++ dq ++ body r ++ dq]
    | JsonField json_path =>
        ["-d '" ++ body r ++ "'"; "-mode pitchfork";
         "-json '" ++ json_path ++ ":FUZZ'"]
    | _ => ["-d '" ++ body r ++ "'"]
    end
  else [].

(** The header flag with the value as it is. *)
Definition verbatim_flag (name_value : string * string) : string :=
  "-H " ++ dq ++ fst name_value ++ ": " ++ snd name_value ++ dq.


Definition header_generator : FuzzerGenerator :=
  FuzzerGenerator_init
    {| method := "POST"; path := "/api"; protocol := "HTTP/1.1";
       headers := [("Host", "example.com"); ("X-Token", "abc")];
       body := "payload"; host := "example.com"; port := None;
       url := "http://example.com/api"; content_type := "";
       is_json := false; is_form := false; is_multipart := false |}
    "X-Token" "words.txt".

Definition form_get_generator : FuzzerGenerator :=
  FuzzerGenerator_init
    {| method := "GET"; path := "/login"; protocol := "HTTP/1.1";
       headers := [("Content-Type", "application/x-www-form-urlencoded")];
       body := "user=admin"; host := ""; port := None; url := "";
       content_type := "application/x-www-form-urlencoded";
       is_json := false; is_form := true; is_multipart := false |}
    "user" "words.txt".


(** * The command line *)


(** The arguments [argparse] hands to [main]: [-p], [-w], [-r], [-o] and
    [-v]. *)
Record Args : Type := mkArgs {
  arg_param : string;
  arg_wordlist : string;
  arg_request : option string;
  arg_output : option string;
  arg_verbose : bool
}.













Definition print_args : Args :=
  {| arg_param := "id"; arg_wordlist := "words.txt";
     arg_request := Some "req.txt"; arg_output := None; arg_verbose := false |}.



(** * Properties *)

(** ** Strings *)

Section StringFacts.

Variable sep : ascii.

Lemma contains_char_cons (a : ascii) (s : string) :
  contains (String sep "") (String a s) =
  Ascii.eqb a sep || contains (String sep "") s.
Proof.
  simpl.
  destruct (ascii_dec sep a) as [->|Hne].
  - rewrite Ascii.eqb_refl.
    destruct s; reflexivity.
  - destruct (Ascii.eqb a sep) eqn:E.
    + apply Ascii.eqb_eq in E. congruence.
    + reflexivity.
Qed.

Lemma contains_char_app (s t : string) :
  contains (String sep "") (s ++ t) =
  contains (String sep "") s || contains (String sep "") t.
Proof.
  induction s as [|a s IH].
  - reflexivity.
  - change (String a s ++ t) with (String a (s ++ t)).
    rewrite !contains_char_cons, IH. now rewrite orb_assoc.
Qed.

Lemma partition_Some (s h t : string) :
  partition sep s = (h, Some t) ->
  s = h ++ String sep t /\ contains (String sep "") h = false.
Proof.
  revert h t. induction s as [|a s IH]; intros h t.
  - discriminate.
  - cbn [partition]. destruct (Ascii.eqb a sep) eqn:E.
    + intros [= <- <-]. apply Ascii.eqb_eq in E. subst a. now split.
    + destruct (partition sep s) as [h' o'] eqn:P.
      intros [= <- ->].
      destruct (IH h' t eq_refl) as [-> Hc]. split.
      * reflexivity.
      * rewrite contains_char_cons, E, Hc. reflexivity.
Qed.

Lemma partition_None (s h : string) :
  partition sep s = (h, None) ->
  h = s /\ contains (String sep "") s = false.
Proof.
  revert h. induction s as [|a s IH]; intros h.
  - intros [= <-]. now split.
  - cbn [partition]. destruct (Ascii.eqb a sep) eqn:E; [discriminate|].
    destruct (partition sep s) as [h' o'] eqn:P.
    intros [= <- ->].
    destruct (IH h' eq_refl) as [-> Hc]. split.
    + reflexivity.
    + rewrite contains_char_cons, E, Hc. reflexivity.
Qed.

Lemma partition_app (h t : string) :
  contains (String sep "") h = false ->
  partition sep (h ++ String sep t) = (h, Some t).
Proof.
  induction h as [|a h IH]; intros Hc.
  - cbn. now rewrite Ascii.eqb_refl.
  - rewrite contains_char_cons in Hc. apply orb_false_iff in Hc as [E Hc].
    change (String a h ++ String sep t) with (String a (h ++ String sep t)).
    cbn [partition]. rewrite E, (IH Hc). reflexivity.
Qed.

Lemma partition_contains (s : string) :
  contains (String sep "") s = true ->
  exists h t, partition sep s = (h, Some t).
Proof.
  intros Hc. destruct (partition sep s) as [h [t|]] eqn:P.
  - now exists h, t.
  - apply partition_None in P as [_ P]. congruence.
Qed.

Lemma partition_no_sep (s : string) :
  contains (String sep "") s = false -> partition sep s = (s, None).
Proof.
  intros Hc. destruct (partition sep s) as [h [t|]] eqn:P.
  - apply partition_Some in P as [-> _].
    rewrite contains_char_app, contains_char_cons, Ascii.eqb_refl in Hc.
    now rewrite orb_true_r in Hc.
  - apply partition_None in P as [-> _]. reflexivity.
Qed.

(** [a, b = s.split(sep, 1)] succeeds whenever [sep in s]. *)
Lemma unpack2_split1 (s : string) :
  contains (String sep "") s = true ->
  exists h t, partition sep s = (h, Some t) /\
              unpack2 (split1 sep s) = Ok (h, t).
Proof.
  intros Hc. destruct (partition_contains s Hc) as (h & t & P).
  exists h, t. split; [assumption|].
  unfold split1. now rewrite P.
Qed.

(** [s.split(sep)] starts with the text before the first separator. *)
Lemma split_head (s : string) :
  exists rest, split sep s = fst (partition sep s) :: rest.
Proof.
  induction s as [|a s [rest IH]].
  - now exists [].
  - cbn [split partition]. destruct (Ascii.eqb a sep).
    + now exists (split sep s).
    + rewrite IH. destruct (partition sep s) as [h o]. now exists rest.
Qed.

Lemma index_split_0 (s : string) :
  index (split sep s) 0 = Ok (fst (partition sep s)).
Proof. destruct (split_head s) as [rest ->]. reflexivity. Qed.

Lemma index_split1_0 (s : string) :
  index (split1 sep s) 0 = Ok (fst (partition sep s)).
Proof.
  unfold split1. destruct (partition sep s) as [h [t|]]; reflexivity.
Qed.

(** With a separator in [s], the second field of [s.split(sep)] is the
    first field of the text after the first separator. *)
Lemma index_split_1 (s h t : string) :
  partition sep s = (h, Some t) ->
  index (split sep s) 1 = Ok (fst (partition sep t)).
Proof.
  revert h. induction s as [|a s IH]; intros h.
  - discriminate.
  - cbn [split partition]. destruct (Ascii.eqb a sep).
    + intros [= <- <-]. destruct (split_head s) as [rest ->]. reflexivity.
    + destruct (partition sep s) as [h' o'] eqn:P. intros [= <- ->].
      specialize (IH h' eq_refl).
      destruct (split sep s) as [|f fs]; [discriminate IH|exact IH].
Qed.

End StringFacts.

(** ** Dictionaries *)

Section DictFacts.

Context {V : Type}.

Lemma mem_keys (k : string) (d : dict V) :
  Dict.mem k d = true <-> In k (Dict.keys d).
Proof.
  induction d as [|[k' v] d IH]; simpl.
  - split; [discriminate|contradiction].
  - rewrite orb_true_iff, IH, String.eqb_eq. reflexivity.
Qed.

Lemma mem_get (k : string) (d : dict V) :
  Dict.mem k d = true <-> exists v, Dict.get k d = Some v.
Proof.
  induction d as [|[k' v] d IH]; simpl.
  - split; [discriminate|intros [v [=]]].
  - destruct (String.eqb k' k); simpl.
    + split; [intros _; now exists v|reflexivity].
    + exact IH.
Qed.

Lemma mem_false_get (k : string) (d : dict V) :
  Dict.mem k d = false <-> Dict.get k d = None.
Proof.
  induction d as [|[k' v] d IH]; simpl.
  - now split.
  - destruct (String.eqb k' k); simpl.
    + split; discriminate.
    + exact IH.
Qed.

(** [d[k]] after [k in d] does not raise. *)
Lemma item_get (k : string) (d : dict V) (v : V) :
  Dict.get k d = Some v -> Dict.item d k = Ok v.
Proof. unfold Dict.item. now intros ->. Qed.

Lemma mem_set (k k' : string) (v : V) (d : dict V) :
  Dict.mem k (Dict.set k' v d) = String.eqb k' k || Dict.mem k d.
Proof.
  induction d as [|[k0 v0] d IH]; simpl.
  - now rewrite orb_false_r.
  - destruct (String.eqb k0 k') eqn:E; simpl.
    + apply String.eqb_eq in E. subst k0.
      destruct (String.eqb k' k); reflexivity.
    + rewrite IH. destruct (String.eqb k0 k), (String.eqb k' k); reflexivity.
Qed.

End DictFacts.

(** ** The request parser *)

Lemma index_lt {A : Type} (l : list A) (i : nat) (d : A) :
  (i < List.length l)%nat -> index l i = Ok (nth i l d).
Proof.
  intros H. unfold index. now rewrite (nth_error_nth' l d H).
Qed.

(** The header loop raises nothing: a line is unpacked only after the test
    [':' in line]. *)
Lemma parse_header_lines_total (lines : list string) :
  forall (i : nat) (hdrs : dict string),
    exists hdrs' body_start,
      parse_header_lines i lines hdrs = Ok (hdrs', body_start).
Proof.
  induction lines as [|line rest IH]; intros i hdrs; cbn [parse_header_lines].
  - now exists hdrs, 0%nat.
  - destruct (String.eqb (strip line) "").
    + now exists hdrs, (i + 1)%nat.
    + destruct (contains ":" (strip line)) eqn:C.
      * destruct (unpack2_split1 ":"%char _ C) as (h & t & _ & ->).
        cbn [bind]. apply IH.
      * apply IH.
Qed.

Lemma header_block_eq (request_text : string) :
  exists body_start,
    parse_header_lines 1 (skipn 1 (request_lines request_text)) [] =
    Ok (header_block request_text, body_start).
Proof.
  unfold header_block.
  destruct (parse_header_lines_total (skipn 1 (request_lines request_text)) 1 [])
    as (h & b & ->).
  now exists b.
Qed.

(** The request line: three tokens or more fill the three fields, fewer
    leave the request as it is. *)
Lemma request_line_total (parts : list string) (self : HTTPRequest) :
  exists self',
    (if (3 <=? List.length parts)%nat then
       p0 <- index parts 0 ;;
       p1 <- index parts 1 ;;
       p2 <- index parts 2 ;;
       Ok (set_request_line p0 p1 p2 self)
     else Ok self) = Ok self' /\
    headers self' = headers self /\ port self' = port self /\
    is_json self' = is_json self /\ is_form self' = is_form self /\
    is_multipart self' = is_multipart self /\
    content_type self' = content_type self /\
    ((List.length parts < 3)%nat -> self' = self).
Proof.
  destruct parts as [|p0 [|p1 [|p2 parts]]]; cbn;
    try (exists self; repeat split; reflexivity).
  exists (set_request_line p0 p1 p2 self).
  repeat split. lia.
Qed.

(** The Host block raises exactly on a bad port. *)
Lemma parse_host_spec (self : HTTPRequest) :
  if bad_host_port (headers self)
  then parse_host self = Raise ValueError
  else exists self',
      parse_host self = Ok self' /\ headers self' = headers self /\
      is_json self' = is_json self /\ is_form self' = is_form self /\
      is_multipart self' = is_multipart self /\
      content_type self' = content_type self /\
      method self' = method self /\ path self' = path self /\
      protocol self' = protocol self.
Proof.
  unfold bad_host_port, parse_host.
  destruct (Dict.get "Host" (headers self)) as [h|] eqn:G.
  - assert (M : Dict.mem "Host" (headers self) = true)
      by (apply mem_get; now exists h).
    rewrite M, (item_get _ _ _ G). cbn [bind set_host host].
    destruct (contains ":" h) eqn:C; cbn [andb].
    + destruct (partition_contains ":"%char h C) as (h0 & t & P).
      rewrite index_split_0. cbn [bind].
      rewrite (index_split_1 _ _ _ _ P). cbn [bind].
      assert (PT : port_text h = fst (partition ":"%char t)).
      { unfold port_text. pose proof (index_split_1 _ _ _ _ P) as I.
        unfold index in I.
        destruct (nth_error (split ":"%char h) 1) as [x|] eqn:N; [|discriminate].
        injection I as <-. now apply nth_error_nth. }
      rewrite PT. unfold int_or_raise.
      destruct (PyStr.int (fst (partition ":"%char t))) as [n|].
      * cbn [bind]. eexists. repeat split.
      * reflexivity.
    + eexists. repeat split.
  - apply mem_false_get in G. rewrite G. exists self. repeat split.
Qed.

Lemma parse_content_type_spec (self : HTTPRequest) :
  exists self',
    parse_content_type self = Ok self' /\ headers self' = headers self /\
    method self' = method self /\ path self' = path self /\
    protocol self' = protocol self /\ url self' = url self /\
    port self' = port self /\ host self' = host self /\
    body self' = body self /\
    match Dict.get "Content-Type" (headers self) with
    | Some v =>
        content_type self' = v /\
        is_json self' = contains "application/json" v /\
        is_form self' = contains "application/x-www-form-urlencoded" v /\
        is_multipart self' = contains "multipart/form-data" v
    | None =>
        content_type self' = content_type self /\
        is_json self' = is_json self /\ is_form self' = is_form self /\
        is_multipart self' = is_multipart self
    end.
Proof.
  unfold parse_content_type.
  destruct (Dict.get "Content-Type" (headers self)) as [v|] eqn:G.
  - assert (M : Dict.mem "Content-Type" (headers self) = true)
      by (apply mem_get; now exists v).
    rewrite M, (item_get _ _ _ G). cbn [bind].
    eexists. repeat split.
  - pose proof G as G'. apply mem_false_get in G'. rewrite G'.
    exists self. repeat split.
Qed.

(** What [parse_request] does on a fresh request, step by step. *)
Lemma parse_request_steps (request_text : string) :
  if bad_host_port (header_block request_text)
  then parse_request HTTPRequest_init request_text = Raise ValueError
  else exists r,
      parse_request HTTPRequest_init request_text = Ok r /\
      headers r = header_block request_text /\
      ((List.length (request_line_tokens request_text) < 3)%nat ->
       method r = "" /\ path r = "" /\ protocol r = "") /\
      match Dict.get "Content-Type" (headers r) with
      | Some v =>
          content_type r = v /\
          is_json r = contains "application/json" v /\
          is_form r = contains "application/x-www-form-urlencoded" v /\
          is_multipart r = contains "multipart/form-data" v
      | None =>
          content_type r = "" /\ is_json r = false /\ is_form r = false /\
          is_multipart r = false
      end.
Proof.
  unfold parse_request.
  fold (request_lines request_text).
  destruct (split_head LF (strip request_text)) as [rest HL].
  fold (request_lines request_text) in HL.
  assert (I0 : index (request_lines request_text) 0 =
               Ok (nth 0 (request_lines request_text) "")).
  { rewrite HL. reflexivity. }
  rewrite I0. cbn [bind].
  fold (request_line_tokens request_text).
  destruct (request_line_total (request_line_tokens request_text) HTTPRequest_init)
    as (s1 & -> & Hh & Hp & Hj & Hf & Hm & Hc & Hsame).
  cbn [bind]. rewrite Hh. cbn [HTTPRequest_init headers].
  destruct (header_block_eq request_text) as [bs ->]. cbn [bind].
  pose proof (parse_host_spec (set_headers (header_block request_text) s1)) as PH.
  cbn [set_headers headers] in PH.
  destruct (bad_host_port (header_block request_text)).
  - rewrite PH. reflexivity.
  - destruct PH as (s2 & -> & Hh2 & Hj2 & Hf2 & Hm2 & Hc2 & Hme & Hpa & Hpr).
    cbn [bind].
    set (s3 := if ((0 <? bs) && (bs <? List.length (request_lines request_text)))%nat
               then set_body (join nl (skipn bs (request_lines request_text))) s2
               else s2).
    assert (E3 : headers s3 = headers s2 /\ is_json s3 = is_json s2 /\
                 is_form s3 = is_form s2 /\ is_multipart s3 = is_multipart s2 /\
                 content_type s3 = content_type s2 /\ method s3 = method s2 /\
                 path s3 = path s2 /\ protocol s3 = protocol s2).
    { subst s3. destruct ((0 <? bs) && (bs <? _))%nat; repeat split. }
    destruct E3 as (E3h & E3j & E3f & E3m & E3c & E3me & E3pa & E3pr).
    destruct (parse_content_type_spec s3)
      as (r & -> & Rh & Rme & Rpa & Rpr & _ & _ & _ & _ & Rct).
    exists r. split; [reflexivity|]. split; [|split].
    + now rewrite Rh, E3h, Hh2.
    + intros Hlt. specialize (Hsame Hlt). subst s1.
      rewrite Rme, Rpa, Rpr, E3me, E3pa, E3pr, Hme, Hpa, Hpr.
      now repeat split.
    + rewrite Rh.
      destruct (Dict.get "Content-Type" (headers s3)).
      * exact Rct.
      * destruct Rct as (-> & -> & -> & ->).
        rewrite E3c, E3j, E3f, E3m, Hc2, Hj2, Hf2, Hm2.
        cbn. rewrite Hc, Hj, Hf, Hm. now repeat split.
Qed.

(** ** The query-string decoder *)

Lemma parse_qs_fold (p : string) (pairs : list (string * string)) :
  forall acc : dict (list string),
    Dict.mem p
      (fold_left
         (fun parsed_result '(name, value) =>
            match Dict.get name parsed_result with
            | Some vs => Dict.set name (vs ++ [value])%list parsed_result
            | None => Dict.set name [value] parsed_result
            end) pairs acc) =
    Dict.mem p acc || existsb (fun nv => String.eqb (fst nv) p) pairs.
Proof.
  induction pairs as [|[n v] pairs IH]; intros acc; cbn [fold_left existsb fst].
  - now rewrite orb_false_r.
  - rewrite IH.
    destruct (Dict.get n acc); rewrite mem_set;
      destruct (String.eqb n p), (Dict.mem p acc); reflexivity.
Qed.

(** The keys of [parse_qs] are the names of [parse_qsl]. *)
Lemma parse_qs_mem (p qs : string) :
  Dict.mem p (Urllib.parse_qs qs) =
  existsb (fun nv => String.eqb (fst nv) p) (Urllib.parse_qsl qs).
Proof. unfold Urllib.parse_qs. now rewrite parse_qs_fold. Qed.

Lemma append_nonempty (a : string) (c : ascii) (b : string) :
  a ++ String c b <> "".
Proof. destruct a; discriminate. Qed.

Lemma length_zero (s : string) :
  (String.length s =? 0)%nat = true <-> s = "".
Proof. destruct s; cbn; split; congruence. Qed.

(** [p] is a key of [parse_qs(qs)] exactly when [qs] names [p]. *)
Lemma parse_qs_names (p qs : string) :
  Dict.mem p (Urllib.parse_qs qs) = true <-> names_param qs p.
Proof.
  rewrite parse_qs_mem, existsb_exists. unfold Urllib.parse_qsl, names_param.
  split.
  - intros ([n v] & Hin & Heq). cbn [fst] in Heq. apply String.eqb_eq in Heq.
    apply in_flat_map in Hin as (field & Hf & Hnv).
    destruct (String.eqb qs ""); [contradiction Hf|].
    destruct (String.eqb field ""); [contradiction Hnv|].
    unfold split1 in Hnv.
    destruct (partition "="%char field) as [rn [rv|]] eqn:P;
      [|contradiction Hnv].
    destruct (String.length rv =? 0)%nat eqn:L; [contradiction Hnv|].
    destruct Hnv as [[= <- <-]|[]].
    apply partition_Some in P as [-> Hc].
    exists (rn ++ "=" ++ rv), rn, rv. repeat split; try assumption.
    intros ->. discriminate L.
  - intros (field & name & value & Hf & -> & Hc & Hv & Hp).
    exists (Urllib.unquote (replace "+"%char " "%char name),
            Urllib.unquote (replace "+"%char " "%char value)).
    split; [|cbn [fst]; now apply String.eqb_eq].
    apply in_flat_map. exists (name ++ "=" ++ value). split.
    + destruct (String.eqb qs "") eqn:Q; [|exact Hf].
      apply String.eqb_eq in Q. subst qs. destruct Hf as [Hf|[]].
      symmetry in Hf. now apply append_nonempty in Hf.
    + destruct (String.eqb (name ++ "=" ++ value) "") eqn:Q.
      * apply String.eqb_eq in Q. now apply append_nonempty in Q.
      * unfold split1. change (name ++ "=" ++ value) with (name ++ String "="%char value).
        rewrite (partition_app "="%char name value Hc).
        destruct (String.length value =? 0)%nat eqn:L.
        -- apply length_zero in L. contradiction.
        -- now left.
Qed.

(** ** The resolver *)

Lemma loads_raises (s : string) (e : exn) :
  Json.loads s = Raise e -> e = JSONDecodeError.
Proof.
  unfold Json.loads.
  destruct (String.prefix bom s); [congruence|].
  destruct (scan_once _ _) as [[obj r]|]; [|congruence].
  destruct (String.eqb (skip_ws r) ""); congruence.
Qed.

(** The cookie loop raises nothing and finds the first matching segment. *)
Lemma find_cookie_spec (p : string) (cookies : list string) :
  exists b,
    find_cookie cookies p = Ok b /\
    (b = true <->
     exists segment name rest,
       In segment cookies /\ segment = name ++ "=" ++ rest /\
       contains "=" name = false /\ strip name = p).
Proof.
  induction cookies as [|c cookies (b & IH & Hb)]; cbn [find_cookie].
  - exists false. split; [reflexivity|]. split; [discriminate|].
    intros (? & ? & ? & [] & _).
  - destruct (contains "=" c) eqn:C.
    + rewrite index_split_0. cbn [bind].
      destruct (partition_contains "="%char c C) as (h & t & P).
      rewrite P. cbn [fst].
      apply partition_Some in P as [-> Hc].
      destruct (String.eqb (strip h) p) eqn:E.
      * exists true. split; [reflexivity|]. split; [|reflexivity]. intros _.
        apply String.eqb_eq in E.
        exists (h ++ "=" ++ t), h, t. repeat split; try assumption. now left.
      * exists b. split; [exact IH|]. rewrite Hb. split.
        -- intros (sg & n & r & Hin & Hs & Hn & Hp).
           exists sg, n, r. repeat split; try assumption. now right.
        -- intros (sg & n & r & [<-|Hin] & Hs & Hn & Hp).
           ++ change (n ++ "=" ++ r) with (n ++ String "="%char r) in Hs.
              pose proof (partition_app "="%char n r Hn) as P1.
              pose proof (partition_app "="%char h t Hc) as P2.
              rewrite <- Hs in P1. rewrite P1 in P2. injection P2 as -> ->.
              apply String.eqb_neq in E. contradiction.
           ++ now exists sg, n, r.
    + exists b. split; [exact IH|]. rewrite Hb. split.
      * intros (sg & n & r & Hin & Hs & Hn & Hp).
        exists sg, n, r. repeat split; try assumption. now right.
      * intros (sg & n & r & [<-|Hin] & Hs & Hn & Hp).
        -- subst c. change (n ++ "=" ++ r) with (n ++ String "="%char r) in C.
           rewrite contains_char_app, contains_char_cons, Ascii.eqb_refl in C.
           now rewrite orb_true_r in C.
        -- now exists sg, n, r.
Qed.

(** The URL test of [find_param_location] raises nothing and decides
    [in_url_query]. *)
Lemma url_check_spec (r : HTTPRequest) (p : string) :
  exists b,
    (if contains "?" (path r) then
       '(_, query) <- unpack2 (split1 "?"%char (path r)) ;;
       let params := Urllib.parse_qs query in
       Ok (Dict.mem p params)
     else Ok false) = Ok b /\
    (b = true <-> in_url_query r p).
Proof.
  unfold in_url_query. destruct (contains "?" (path r)) eqn:C.
  - destruct (unpack2_split1 "?"%char _ C) as (h & t & P & ->). cbn [bind].
    exists (Dict.mem p (Urllib.parse_qs t)). split; [reflexivity|].
    pose proof P as P'. apply partition_Some in P' as [E Hc].
    rewrite mem_keys. split.
    + intros Hin. now exists h, t.
    + intros (h' & t' & E' & Hc' & Hin).
      change (h' ++ "?" ++ t') with (h' ++ String "?"%char t') in E'.
      pose proof (partition_app "?"%char h' t' Hc') as P2.
      rewrite <- E', P in P2. now injection P2 as -> ->.
  - exists false. split; [reflexivity|]. split; [discriminate|].
    intros (h' & t' & E' & _ & _).
    change (h' ++ "?" ++ t') with (h' ++ String "?"%char t') in E'.
    rewrite E', contains_char_app, contains_char_cons, Ascii.eqb_refl in C.
    now rewrite orb_true_r in C.
Qed.

Lemma form_check_spec (r : HTTPRequest) (p : string) :
  (if is_form r && negb (String.eqb (body r) "") then
     let params := Urllib.parse_qs (body r) in Dict.mem p params
   else false) = true <-> in_form_body r p.
Proof.
  unfold in_form_body. destruct (is_form r); cbn [andb].
  - destruct (String.eqb (body r) "") eqn:E; cbn [negb].
    + apply String.eqb_eq in E. split; [discriminate|]. now intros (_ & H & _).
    + apply String.eqb_neq in E. cbv zeta. rewrite mem_keys. tauto.
  - split; [discriminate|]. now intros (H & _).
Qed.

(** The JSON search of [find_param_location] raises nothing: a body that
    does not parse counts as a body without the parameter. *)
Lemma json_check_spec (self : FuzzerGenerator) :
  let r := request self in
  let p := param_to_fuzz self in
  (exists json_path,
      in_json_body r p json_path /\
      (if is_json r && negb (String.eqb (body r) "") then
         match Json.loads (body r) with
         | Ok json_body => Ok (_find_json_param self json_body p "")
         | Raise JSONDecodeError => Ok (false, self)
         | Raise e => Raise e
         end
       else Ok (false, self)) = Ok (true, set_fuzz_position json_path self)) \/
  ((forall json_path, ~ in_json_body r p json_path) /\
   (if is_json r && negb (String.eqb (body r) "") then
      match Json.loads (body r) with
      | Ok json_body => Ok (_find_json_param self json_body p "")
      | Raise JSONDecodeError => Ok (false, self)
      | Raise e => Raise e
      end
    else Ok (false, self)) = Ok (false, self)).
Proof.
  intros r p. unfold in_json_body. destruct (is_json r); cbn [andb].
  - destruct (String.eqb (body r) "") eqn:E; cbn [negb].
    + apply String.eqb_eq in E. right. split; [|reflexivity].
      now intros jp (_ & H & _).
    + apply String.eqb_neq in E.
      destruct (Json.loads (body r)) as [j|e] eqn:L.
      * unfold _find_json_param.
        destruct (find_json_path j p "") as [jp|] eqn:F.
        -- left. exists jp. split; [|reflexivity].
           repeat split; try assumption. now exists j.
        -- right. split; [|reflexivity].
           intros jp (_ & _ & j' & [= <-] & F'). congruence.
      * right. rewrite (loads_raises _ _ L). split; [|reflexivity].
        intros jp (_ & _ & j' & [=] & _).
  - right. split; [|reflexivity]. now intros jp (H & _).
Qed.

Lemma cookie_check_spec (r : HTTPRequest) (p : string) :
  exists b,
    (if Dict.mem "Cookie" (headers r) then
       v <- Dict.item (headers r) "Cookie" ;;
       find_cookie (split ";"%char v) p
     else Ok false) = Ok b /\
    (b = true <-> in_cookies r p).
Proof.
  unfold in_cookies.
  destruct (Dict.get "Cookie" (headers r)) as [v|] eqn:G.
  - assert (M : Dict.mem "Cookie" (headers r) = true)
      by (apply mem_get; now exists v).
    rewrite M, (item_get _ _ _ G). cbn [bind].
    destruct (find_cookie_spec p (split ";"%char v)) as (b & -> & Hb).
    exists b. split; [reflexivity|]. rewrite Hb. split.
    + intros (sg & n & t & H). now exists v, sg, n, t.
    + intros (v' & sg & n & t & [= <-] & H). now exists sg, n, t.
  - apply mem_false_get in G. rewrite G. exists false.
    split; [reflexivity|]. split; [discriminate|].
    intros (v' & sg & n & t & G' & _). apply mem_false_get in G. congruence.
Qed.

(** [find_param_location] follows the priority of the specification. *)
Lemma find_param_location_spec (self : FuzzerGenerator) :
  exists t,
    resolves (request self) (param_to_fuzz self) t /\
    find_outcome self t (find_param_location self).
Proof.
  unfold find_param_location. cbv zeta.
  destruct (url_check_spec (request self) (param_to_fuzz self))
    as (b1 & E1 & H1). cbv zeta in E1. rewrite E1. clear E1. cbn [bind].
  destruct b1.
  { exists (Some UrlQueryParam). split; [|constructor].
    constructor. now apply H1. }
  assert (N1 : ~ in_url_query (request self) (param_to_fuzz self))
    by (intros K; apply H1 in K; discriminate K).
  pose proof (form_check_spec (request self) (param_to_fuzz self)) as H2.
  cbv zeta in H2.
  destruct (if is_form (request self) && negb (String.eqb (body (request self)) "")
            then Dict.mem (param_to_fuzz self) (Urllib.parse_qs (body (request self)))
            else false).
  { exists (Some FormBodyParam). split; [|constructor].
    constructor; [assumption|]. now apply H2. }
  assert (N2 : ~ in_form_body (request self) (param_to_fuzz self))
    by (intros K; apply H2 in K; discriminate K).
  destruct (json_check_spec self) as [(jp & J & ->)|(N3 & ->)]; cbn [bind].
  { exists (Some (JsonField jp)). split; [|constructor].
    now constructor. }
  destruct (Dict.mem (param_to_fuzz self) (headers (request self))) eqn:M.
  { exists (Some Header). split; [|constructor].
    constructor; try assumption. now apply mem_keys. }
  assert (N4 : ~ in_headers (request self) (param_to_fuzz self)).
  { intros K. apply mem_keys in K. congruence. }
  destruct (cookie_check_spec (request self) (param_to_fuzz self))
    as (b5 & E5 & H5).
  destruct (Dict.mem "Cookie" (headers (request self))).
  - destruct (Dict.item (headers (request self)) "Cookie") as [v|e];
      cbn [bind] in E5 |- *; [|discriminate E5].
    rewrite E5. cbn [bind]. destruct b5.
    + exists (Some Cookie). split; [|constructor].
      constructor; try assumption. now apply H5.
    + exists None. split; [|constructor].
      constructor; try assumption. intros K. apply H5 in K. discriminate K.
  - injection E5 as <-. exists None. split; [|constructor].
    constructor; try assumption. intros K. apply H5 in K. discriminate K.
Qed.

(** At most one target satisfies the priority. *)
Lemma resolves_functional (r : HTTPRequest) (p : string)
    (t1 t2 : option FuzzTarget) :
  resolves r p t1 -> resolves r p t2 -> t1 = t2.
Proof.
  assert (J : forall a b, in_json_body r p a -> in_json_body r p b -> a = b).
  { intros a b (_ & _ & j & L & F) (_ & _ & j' & L' & F'). congruence. }
  intros R1 R2.
  destruct R1; destruct R2; try reflexivity; try contradiction;
    try (exfalso; eauto; fail);
    try match goal with
        | N : forall jp, ~ in_json_body r p jp, I : in_json_body r p _ |- _ =>
            destruct (N _ I)
        end.
  f_equal. f_equal. eauto.
Qed.

Lemma find_outcome_resolve (self : FuzzerGenerator) (t : option FuzzTarget) :
  find_outcome self t (find_param_location self) -> resolve self = Ok t.
Proof.
  unfold resolve. remember (find_param_location self) as res eqn:E.
  intros O. destruct O; reflexivity.
Qed.



Lemma resolves_iff_outcome (self : FuzzerGenerator) (t : option FuzzTarget) :
  resolves (request self) (param_to_fuzz self) t <->
  resolve self = Ok t /\ find_outcome self t (find_param_location self).
Proof.
  destruct (find_param_location_spec self) as (t' & R & O). split.
  - intros R'. rewrite (resolves_functional _ _ _ _ R' R).
    split; [now apply find_outcome_resolve|exact O].
  - intros [E _]. rewrite (find_outcome_resolve _ _ O) in E.
    now injection E as <-.
Qed.

(** A parameter in none of the five locations is not found. *)
Lemma nowhere_not_found (self : FuzzerGenerator) :
  let r := request self in
  let p := param_to_fuzz self in
  ~ in_url_query r p ->
  ~ in_form_body r p ->
  (forall json_path, ~ in_json_body r p json_path) ->
  ~ in_headers r p ->
  ~ in_cookies r p ->
  find_param_location self = Ok (false, self) /\ resolve self = Ok None.
Proof.
  intros r p N1 N2 N3 N4 N5.
  assert (R : resolves r p None) by now constructor.
  apply resolves_iff_outcome in R as [E O]. split; [|exact E].
  inversion O. reflexivity.
Qed.




(** C10, as the specification states it, fails: in the request target
    [/s?p=&p=1] the query has the field [p=], the parameter [p] is in no
    other location, and the resolver answers with the URL query. *)
Lemma blank_value_then_value_is_found : ~ spec_blank_value_not_found.
Proof.
  intros H.
  specialize (H blank_then_value_generator "/s" "p=&p=1").
  cbv zeta in H.
  assert (E : Ok (Some UrlQueryParam) = Ok None :> result (option FuzzTarget)).
  { apply H.
    - reflexivity.
    - reflexivity.
    - now left.
    - intros (K & _). discriminate K.
    - intros jp (K & _). discriminate K.
    - intros K. exact K.
    - intros (v & sg & n & t & K & _). discriminate K. }
  discriminate E.
Qed.

(** C10, amended: when the query has a field [p=] with a blank value, no
    field of the query gives a name that decodes to [p] a value that is not
    blank, and [p] is in none of the other four locations, the decoded query
    has no key [p] and the resolver returns "not found". *)
Theorem blank_query_value_not_found
    (self : FuzzerGenerator) (before query : string) :
  let r := request self in
  let p := param_to_fuzz self in
  path r = before ++ "?" ++ query ->
  contains "?" before = false ->
  In (p ++ "=") (split "&"%char query) ->
  ~ names_param query p ->
  ~ in_form_body r p ->
  (forall json_path, ~ in_json_body r p json_path) ->
  ~ in_headers r p ->
  ~ in_cookies r p ->
  Dict.mem p (Urllib.parse_qs query) = false /\
  find_param_location self = Ok (false, self) /\
  resolve self = Ok None.
Proof.
  intros r p Hpath Hb Hfield Hnames N2 N3 N4 N5.
  assert (M : Dict.mem p (Urllib.parse_qs query) = false).
  { destruct (Dict.mem p (Urllib.parse_qs query)) eqn:M; [|reflexivity].
    apply parse_qs_names in M. contradiction. }
  split; [exact M|].
  apply (nowhere_not_found self); try assumption.
  intros (b' & q' & E' & Hb' & Hin).
  fold r in E'. rewrite Hpath in E'.
  change (before ++ "?" ++ query) with (before ++ String "?"%char query) in E'.
  change (b' ++ "?" ++ q') with (b' ++ String "?"%char q') in E'.
  pose proof (partition_app "?"%char before query Hb) as P1.
  pose proof (partition_app "?"%char b' q' Hb') as P2.
  rewrite E', P2 in P1. injection P1 as -> ->.
  apply mem_keys in Hin. fold p in Hin. congruence.
Qed.

Lemma blank_query_value_not_found_witness :
  Dict.mem "p" (Urllib.parse_qs "q=1&p=") = false /\
  find_param_location blank_value_generator = Ok (false, blank_value_generator) /\
  resolve blank_value_generator = Ok None.
Proof.
  apply (blank_query_value_not_found blank_value_generator "/s" "q=1&p=").
  - reflexivity.
  - reflexivity.
  - right. now left.
  - intros K. apply parse_qs_names in K. vm_compute in K. discriminate K.
  - intros (K & _). discriminate K.
  - intros jp (K & _). discriminate K.
  - intros K. exact K.
  - intros (v & sg & n & t & K & _). discriminate K.
Defined.

(** ** The command builder *)

Lemma mapM_total {A B : Type} (f : A -> result B) (R : A -> B -> Prop)
    (l : list A) :
  (forall x, In x l -> exists y, f x = Ok y /\ R x y) ->
  exists ys, mapM f l = Ok ys /\ Forall2 R l ys.
Proof.
  induction l as [|x l IH]; intros H; cbn [mapM].
  - exists []. now split.
  - destruct (H x (or_introl eq_refl)) as (y & -> & Hy).
    destruct IH as (ys & -> & Hys).
    { intros z Hz. apply H. now right. }
    cbn [bind]. exists (y :: ys). split; [reflexivity|now constructor].
Qed.

Lemma mapM_pure {A B : Type} (f : A -> result B) (g : A -> B) (l : list A) :
  (forall x, f x = Ok (g x)) -> mapM f l = Ok (map g l).
Proof.
  intros H. induction l as [|x l IH]; cbn [mapM map].
  - reflexivity.
  - now rewrite H, IH.
Qed.

(** The loop body over the fields raises nothing and rewrites the field of
    the target only. *)
Lemma fuzz_field_spec (target field : string) :
  exists field', fuzz_field target field = Ok field' /\
                 fuzzed_segment target field field'.
Proof.
  unfold fuzz_field, fuzzed_segment.
  destruct (contains "=" field) eqn:C.
  - destruct (unpack2_split1 "="%char _ C) as (n & v & P & ->). cbn [bind].
    pose proof P as P'. apply partition_Some in P' as [E Hn].
    destruct (String.eqb n target) eqn:T.
    + apply String.eqb_eq in T. subst n. exists (target ++ "=FUZZ").
      split; [reflexivity|]. left. now exists v.
    + exists field. split; [reflexivity|]. right. split; [|reflexivity].
      intros (v' & E' & Ht).
      change (target ++ "=" ++ v') with (target ++ String "="%char v') in E'.
      pose proof (partition_app "="%char target v' Ht) as P2.
      rewrite <- E', P in P2. injection P2 as -> ->.
      now rewrite String.eqb_refl in T.
  - exists field. split; [reflexivity|]. right. split; [|reflexivity].
    intros (v' & E' & Ht).
    change (target ++ "=" ++ v') with (target ++ String "="%char v') in E'.
    rewrite E', contains_char_app, contains_char_cons, Ascii.eqb_refl in C.
    now rewrite orb_true_r in C.
Qed.

Lemma fuzz_cookie_spec (target c : string) :
  fuzz_cookie target c = Ok (rebuild_cookie_segment target c).
Proof.
  unfold fuzz_cookie, rebuild_cookie_segment.
  destruct (contains "=" c) eqn:C.
  - destruct (unpack2_split1 "="%char _ C) as (n & v & -> & ->). cbn [bind].
    destruct (String.eqb (strip n) target); reflexivity.
  - now rewrite (partition_no_sep "="%char c C).
Qed.

Lemma header_part_spec (self : FuzzerGenerator) (loc : location)
    (name value : string) :
  header_part self loc name value =
  Ok (header_flag (param_to_fuzz self) loc (name, value)).
Proof.
  unfold header_part, header_flag, rebuild_cookie.
  destruct (location_eqb loc header && String.eqb name (param_to_fuzz self));
    [reflexivity|].
  destruct (location_eqb loc cookie && String.eqb name "Cookie");
    [|reflexivity].
  now rewrite (mapM_pure _ _ _ (fuzz_cookie_spec (param_to_fuzz self))).
Qed.

Lemma body_parts_total (self : FuzzerGenerator) (loc : location) :
  exists bs, body_parts self loc = Ok bs.
Proof.
  unfold body_parts.
  destruct (negb (String.eqb (body (request self)) "") &&
            sends_body (method (request self))); [|now eexists].
  destruct (location_eqb loc body_param && is_form (request self)).
  - destruct (mapM_total (fuzz_field (param_to_fuzz self))
                (fuzzed_segment (param_to_fuzz self))
                (split "&"%char (body (request self)))) as (ps & -> & _).
    { intros x _. apply fuzz_field_spec. }
    cbn [bind]. now eexists.
  - destruct (location_eqb loc json_field && is_json (request self));
      now eexists.
Qed.

(** Once the URL part is built, the command is: the word list, the method,
    the URL, one flag per header in the order of the headers, and the parts
    of the body. *)
Lemma cmd_parts_shape (self : FuzzerGenerator) (loc : location) (u : string) :
  fuzz_location self = Some loc ->
  url_part self loc = Ok u ->
  exists bs,
    body_parts self loc = Ok bs /\
    cmd_parts self =
    Ok (("ffuf -w " ++ wordlist self) ::
        ("-X " ++ method (request self)) ::
        u ::
        List.app
          (map (header_flag (param_to_fuzz self) loc) (headers (request self)))
          bs).
Proof.
  intros L U. unfold cmd_parts. rewrite L, U. cbn [bind].
  rewrite (mapM_pure _ (header_flag (param_to_fuzz self) loc)).
  - destruct (body_parts_total self loc) as (bs & B). rewrite B. cbn [bind].
    now exists bs.
  - intros [n v]. apply header_part_spec.
Qed.

Lemma url_part_other (self : FuzzerGenerator) (loc : location) :
  loc <> url_param ->
  url_part self loc = Ok ("-u " ++ dq ++ url (request self) ++ dq).
Proof. unfold url_part. destruct loc; congruence || reflexivity. Qed.


(** What [find_param_location] returns, with the generator it leaves. *)
Lemma find_inv (self : FuzzerGenerator) (b : bool) (self' : FuzzerGenerator) :
  find_param_location self = Ok (b, self') ->
  exists t,
    resolves (request self) (param_to_fuzz self) t /\
    find_outcome self t (Ok (b, self')).
Proof.
  intros E. destruct (find_param_location_spec self) as (t & R & O).
  rewrite E in O. now exists t.
Qed.




(** The header flag of the Cookie header is among the header flags. *)
Lemma cookie_flag_in (p : string) (hdrs : dict string) (v : string) :
  Dict.get "Cookie" hdrs = Some v ->
  In ("-H " ++ dq ++ "Cookie: " ++ rebuild_cookie p v ++ dq)
     (map (header_flag p cookie) hdrs).
Proof.
  induction hdrs as [|[n w] hdrs IH]; cbn [Dict.get map]; [discriminate|].
  destruct (String.eqb n "Cookie") eqn:E.
  - intros [= ->]. left. unfold header_flag. cbn [location_eqb andb].
    now rewrite E.
  - intros G. right. now apply IH.
Qed.





(** ** The search in a JSON document *)

Lemma json_induction (P : json -> Prop) :
  P JNull ->
  (forall b, P (JBool b)) ->
  (forall literal, P (JNumber literal)) ->
  (forall s, P (JString s)) ->
  (forall items, Forall P items -> P (JList items)) ->
  (forall items, Forall (fun kv => P (snd kv)) items -> P (JDict items)) ->
  forall document, P document.
Proof.
  intros HN HB HNum HS HL HD.
  fix IH 1. intros [| b | literal | s | items | items].
  - exact HN.
  - apply HB.
  - apply HNum.
  - apply HS.
  - apply HL. induction items as [|x items IHitems]; constructor.
    + apply IH.
    + exact IHitems.
  - apply HD. induction items as [|[k v] items IHitems]; constructor.
    + apply IH.
    + exact IHitems.
Qed.

Lemma find_app {A : Type} (f : A -> bool) (l1 l2 : list A) :
  List.find f (l1 ++ l2)%list =
  match List.find f l1 with
  | Some x => Some x
  | None => List.find f l2
  end.
Proof.
  induction l1 as [|x l1 IH]; cbn [List.find List.app].
  - reflexivity.
  - destruct (f x); [reflexivity|exact IH].
Qed.

Lemma key_paths_scalar (document : json) (path : string) :
  is_container document = false -> key_paths document path = [].
Proof. destruct document; cbn; congruence. Qed.

(** [_find_json_param] returns the path of the first key equal to the
    parameter in the depth-first order of the document. *)
Lemma find_json_path_first (p : string) (document : json) :
  forall path : string,
    find_json_path document p path =
    option_map snd
      (List.find (fun kp => String.eqb (fst kp) p) (key_paths document path)).
Proof.
  induction document as [| b | literal | s | items IH | items IH]
    using json_induction; intros path; try reflexivity.
  - cbn [find_json_path key_paths]. generalize 0%nat.
    induction IH as [|item items Hitem _ IHitems]; intros i.
    + reflexivity.
    + cbn -[String.append str_of_nat is_container].
      rewrite find_app.
      destruct (is_container item) eqn:C.
      * rewrite Hitem.
        destruct (List.find _ (key_paths item _)); [reflexivity|apply IHitems].
      * rewrite (key_paths_scalar _ _ C). apply IHitems.
  - cbn [find_json_path key_paths].
    induction IH as [|[key value] items Hvalue _ IHitems].
    + reflexivity.
    + cbn [snd] in Hvalue.
      cbn -[String.append is_container].
      destruct (String.eqb key p); [reflexivity|].
      rewrite find_app.
      destruct (is_container value) eqn:C.
      * rewrite Hvalue.
        destruct (List.find _ (key_paths value _)); [reflexivity|apply IHitems].
      * rewrite (key_paths_scalar _ _ C). apply IHitems.
Qed.

Lemma last_app3 {A : Type} (l : list A) (a b c d : A) :
  last (l ++ [a; b; c])%list d = c.
Proof.
  induction l as [|x l IH]; [reflexivity|].
  cbn [List.app]. destruct (l ++ [a; b; c])%list eqn:E.
  - destruct l; discriminate E.
  - exact IH.
Qed.

(** C5, as the specification states it, fails twice.  With the request
    target [/users?id=7] the target [id] is a URL query parameter, and the
    resolver answers with the URL query.  With the method GET the command
    carries no data payload, no mode and no JSON path. *)
Lemma json_example_needs_method_and_query :
  ~ spec_json_example_resolves /\ ~ spec_json_example_command.
Proof.
  split.
  - intros H.
    specialize (H user_id_query_generator eq_refl eq_refl eq_refl).
    vm_compute in H. discriminate H.
  - intros H.
    set (self := user_id_get_generator).
    destruct (H self (set_fuzz_location json_field (set_fuzz_position "user.id" self))
                eq_refl eq_refl eq_refl eq_refl) as (before & C).
    assert (K : cmd_parts
                  (set_fuzz_location json_field (set_fuzz_position "user.id" self)) =
                Ok ["ffuf -w words.txt"; "-X GET";
                    "-u " ++ dq ++ "http://example.com/users" ++ dq;
                    "-H " ++ dq ++ "Host: example.com" ++ dq;
                    "-H " ++ dq ++ "Content-Type: application/json" ++ dq])
      by reflexivity.
    rewrite K in C. injection C as C.
    apply (f_equal (fun l => last l "")) in C.
    unfold user_id_parts in C. rewrite last_app3 in C.
    vm_compute in C. discriminate C.
Qed.

(** C5, amended: a request with the JSON flag, the body
    [{"user":{"id":42}}] and the target [id], where [id] is no URL query
    parameter, resolves to the JSON field with the path [user.id]; the path
    of a field is that of the first key equal to the target in the
    depth-first order of the document; and when the method is POST, PUT or
    PATCH the command ends with the body as the data payload, the pitchfork
    mode and the JSON path [user.id:FUZZ]. *)
Theorem json_example (self : FuzzerGenerator) :
  let r := request self in
  let self' :=
    set_fuzz_location json_field (set_fuzz_position "user.id" self) in
  is_json r = true ->
  body r = user_id_body ->
  param_to_fuzz self = "id" ->
  ~ in_url_query r "id" ->
  find_param_location self = Ok (true, self') /\
  resolve self = Ok (Some (JsonField "user.id")) /\
  (forall (document : json) (p path : string),
      find_json_path document p path =
      option_map snd
        (List.find (fun kp => String.eqb (fst kp) p) (key_paths document path))) /\
  (sends_body (method r) = true ->
   cmd_parts self' =
   Ok (("ffuf -w " ++ wordlist self) ::
       ("-X " ++ method r) ::
       ("-u " ++ dq ++ url r ++ dq) ::
       List.app (map (header_flag "id" json_field) (headers r))
                user_id_parts)).
Proof.
  intros r self' Hj Hb Hp N1.
  assert (R : resolves r (param_to_fuzz self) (Some (JsonField "user.id"))).
  { rewrite Hp. constructor.
    - exact N1.
    - intros (_ & _ & K). rewrite Hb in K. vm_compute in K. tauto.
    - split; [exact Hj|]. rewrite Hb. split; [discriminate|].
      eexists. split; vm_compute; reflexivity. }
  apply resolves_iff_outcome in R as [E O].
  split; [inversion O; reflexivity|]. split; [exact E|].
  split; [intros; apply find_json_path_first|].
  intros M.
  destruct (cmd_parts_shape self' json_field _ eq_refl
              (url_part_other _ json_field ltac:(discriminate)))
    as (bs & B & C).
  cbn [self' request param_to_fuzz wordlist set_fuzz_location set_fuzz_position]
    in C.
  fold r in C. rewrite Hp in C. rewrite C. repeat f_equal.
  unfold body_parts in B.
  cbn [self' request fuzz_position set_fuzz_location set_fuzz_position] in B.
  fold r in B. rewrite M, Hj, Hb in B. cbn in B. now injection B as <-.
Qed.

Lemma json_example_witness :
  resolve user_id_generator = Ok (Some (JsonField "user.id")) /\
  generate_ffuf_command
    (set_fuzz_location json_field
       (set_fuzz_position "user.id" user_id_generator)) =
  Ok ("ffuf -w words.txt -X POST -u " ++ dq ++ "http://example.com/users" ++ dq ++
      " -H " ++ dq ++ "Host: example.com" ++ dq ++
      " -H " ++ dq ++ "Content-Type: application/json" ++ dq ++
      " -d '" ++ user_id_body ++ "' -mode pitchfork -json 'user.id:FUZZ'").
Proof.
  destruct (json_example user_id_generator eq_refl eq_refl eq_refl)
    as (_ & E & _ & C).
  - intros (b & q & K & _). vm_compute in K.
    destruct b as [|c0 [|c1 [|c2 [|c3 [|c4 [|c5 [|c6 b]]]]]]]; discriminate K.
  - split; [exact E|].
    unfold generate_ffuf_command. rewrite (C eq_refl). reflexivity.
Defined.




(** C3, as the specification states it, fails: with the header
    [Content-Type: application/json, application/x-www-form-urlencoded]
    the request is flagged as form-urlencoded although its class is json,
    and the resolver finds the parameter [a] of the body [a=1] in the form
    body. *)
Lemma content_type_flags_overlap :
  ~ spec_content_type_exclusive /\
  exists r,
    parse_request HTTPRequest_init two_content_types = Ok r /\
    classify (headers r) = ct_json /\
    is_form r = true /\
    resolve (FuzzerGenerator_init r "a" "words.txt") = Ok (Some FormBodyParam).
Proof.
  split.
  - intros H.
    destruct (H two_content_types _ eq_refl) as (_ & [Hform _] & _).
    specialize (Hform eq_refl). vm_compute in Hform. discriminate Hform.
  - eexists. split; [reflexivity|]. repeat split.
Qed.

(** C3, amended: for every parsed request the three flags are set
    independently, each exactly when the Content-Type header is present and
    its value contains the substring of the flag, and all are unset without
    the header.  The class of the specification agrees with the flags on
    json; a request of class form-urlencoded or multipart has that flag
    set, and a request of class none or other has no flag set. *)
Theorem content_type_flags_independent
    (request_text : string) (r : HTTPRequest) :
  parse_request HTTPRequest_init request_text = Ok r ->
  match Dict.get "Content-Type" (headers r) with
  | Some v =>
      content_type r = v /\
      is_json r = contains "application/json" v /\
      is_form r = contains "application/x-www-form-urlencoded" v /\
      is_multipart r = contains "multipart/form-data" v
  | None =>
      content_type r = "" /\ is_json r = false /\ is_form r = false /\
      is_multipart r = false
  end /\
  (is_json r = true <-> classify (headers r) = ct_json) /\
  (classify (headers r) = ct_form_urlencoded -> is_form r = true) /\
  (classify (headers r) = ct_multipart -> is_multipart r = true) /\
  (classify (headers r) = ct_none \/ classify (headers r) = ct_other ->
   is_json r = false /\ is_form r = false /\ is_multipart r = false).
Proof.
  intros E. pose proof (parse_request_steps request_text) as S.
  destruct (bad_host_port (header_block request_text)).
  - rewrite E in S. discriminate S.
  - destruct S as (r' & E' & _ & _ & F). rewrite E in E'.
    injection E' as <-. split; [exact F|].
    unfold classify.
    destruct (Dict.get "Content-Type" (headers r)) as [v|].
    + destruct F as (_ & -> & -> & ->).
      destruct (contains "application/json" v),
               (contains "application/x-www-form-urlencoded" v),
               (contains "multipart/form-data" v);
        repeat split; intros; try easy; intuition discriminate.
    + destruct F as (_ & -> & -> & ->).
      repeat split; intros; easy.
Qed.

Lemma content_type_flags_independent_witness :
  exists r,
    parse_request HTTPRequest_init two_content_types = Ok r /\
    is_json r = true /\ is_form r = true /\ is_multipart r = false /\
    classify (headers r) = ct_json.
Proof.
  eexists. split; [reflexivity|].
  pose proof (content_type_flags_independent two_content_types _ eq_refl)
    as (F & _).
  vm_compute in F. destruct F as (_ & Fj & Ff & Fm).
  repeat split; assumption || reflexivity.
Defined.

(** The three Host headers of the specification. *)
Example host_without_port :
  option_map url_and_port
    (ok_value (parse_request HTTPRequest_init
                 ("GET /a HTTP/1.1" ++ nl ++ "Host: example.com"))) =
  Some ("http://example.com/a", None).
Proof. reflexivity. Qed.

Example host_port_443 :
  option_map url_and_port
    (ok_value (parse_request HTTPRequest_init
                 ("GET /a HTTP/1.1" ++ nl ++ "Host: example.com:443"))) =
  Some ("https://example.com/a", Some 443%Z).
Proof. reflexivity. Qed.

Example host_port_8443 :
  option_map url_and_port
    (ok_value (parse_request HTTPRequest_init
                 ("GET /a HTTP/1.1" ++ nl ++ "Host: example.com:8443"))) =
  Some ("http://example.com:8443/a", Some 8443%Z).
Proof. reflexivity. Qed.

(** The URL a request gets from its Host header. *)
Lemma parse_host_url (self self' : HTTPRequest) :
  parse_host self = Ok self' ->
  if Dict.mem "Host" (headers self)
  then url self' =
       scheme_of (port self') ++ "://" ++ host self' ++
       port_suffix (port self') ++ path self
  else url self' = url self.
Proof.
  unfold parse_host. destruct (Dict.mem "Host" (headers self)).
  - destruct (Dict.item (headers self) "Host") as [h|e]; cbn [bind];
      [|discriminate].
    cbn [host set_host].
    destruct (contains ":" h).
    + destruct (index (split ":"%char h) 0) as [h0|e]; cbn [bind];
        [|discriminate].
      destruct (index (split ":"%char h) 1) as [p1|e]; cbn [bind];
        [|discriminate].
      destruct (int_or_raise p1) as [n|e]; cbn [bind]; [|discriminate].
      intros [= <-]. reflexivity.
    + cbn [bind]. intros [= <-]. reflexivity.
  - intros [= <-]. reflexivity.
Qed.

Lemma port_suffix_empty (n : Z) :
  port_suffix (Some n) = "" <-> (n = 0 \/ n = 80 \/ n = 443)%Z.
Proof.
  unfold port_suffix.
  destruct (Z.eqb_spec n 0), (Z.eqb_spec n 80), (Z.eqb_spec n 443);
    cbn [negb andb orb]; split; intros H; try reflexivity; try lia;
    try discriminate H.
  all: auto.
Qed.

(** C8: the request [GET / HTTP/1.1] with the header
    [Host: example.com:0] has a port, which is neither 80 nor 443, and its
    URL carries no port.  The Host block builds the URL from the scheme, the
    host, the port suffix and the path, and the suffix of a port is empty
    for 0, 80 and 443 and for no other port. *)
Theorem port_zero_has_no_suffix :
  (exists r,
      parse_request HTTPRequest_init port_zero_request = Ok r /\
      headers r = [("Host", "example.com:0")] /\
      port r = Some 0%Z /\
      url r = "http://example.com/") /\
  (forall self self' : HTTPRequest,
      parse_host self = Ok self' ->
      Dict.mem "Host" (headers self) = true ->
      url self' =
      scheme_of (port self') ++ "://" ++ host self' ++
      port_suffix (port self') ++ path self) /\
  (forall n : Z, port_suffix (Some n) = "" <-> (n = 0 \/ n = 80 \/ n = 443)%Z).
Proof.
  split; [|split].
  - eexists. repeat split.
  - intros self self' E M. pose proof (parse_host_url _ _ E) as U.
    now rewrite M in U.
  - exact port_suffix_empty.
Qed.

(** * Further properties *)

(** ** Strings and dictionaries *)

Lemma append_assoc (a b c : string) : (a ++ b) ++ c = a ++ b ++ c.
Proof. induction a as [|x a IH]; cbn; [reflexivity|now rewrite IH]. Qed.

Lemma append_empty_r (a : string) : a ++ "" = a.
Proof. induction a as [|x a IH]; cbn; [reflexivity|now rewrite IH]. Qed.

Lemma split_not_nil (sep : ascii) (s : string) : split sep s <> [].
Proof. destruct (split_head sep s) as [rest ->]. discriminate. Qed.

(** No field of [s.split(sep)] holds the separator. *)
Lemma split_no_sep (sep : ascii) (s : string) :
  Forall (fun field => contains (String sep "") field = false) (split sep s).
Proof.
  induction s as [|a s IH]; cbn [split].
  - repeat constructor.
  - destruct (Ascii.eqb a sep) eqn:E.
    + constructor; [reflexivity|exact IH].
    + destruct (split sep s) as [|f fs].
      * constructor; [|constructor].
        now rewrite contains_char_cons, E.
      * inversion IH as [|? ? Hf Hfs]; subst. constructor; [|exact Hfs].
        now rewrite contains_char_cons, E, Hf.
Qed.

(** [sep.join(s.split(sep)) == s] *)
Lemma join_split (sep : ascii) (s : string) :
  join (String sep "") (split sep s) = s.
Proof.
  unfold join. induction s as [|a s IH]; cbn [split].
  - reflexivity.
  - destruct (Ascii.eqb a sep) eqn:E.
    + apply Ascii.eqb_eq in E. subst a.
      pose proof (split_not_nil sep s) as N.
      destruct (split sep s) as [|f fs]; [contradiction|].
      change (String.concat (String sep "") ("" :: f :: fs))
        with (String sep (String.concat (String sep "") (f :: fs))).
      now rewrite IH.
    + destruct (split sep s) as [|f [|g gs]].
      * cbn in IH. subst s. reflexivity.
      * cbn in IH |- *. now rewrite IH.
      * change (String.concat (String sep "") (String a f :: g :: gs))
          with (String a (String.concat (String sep "") (f :: g :: gs))).
        now rewrite IH.
Qed.



Section DictLaws.

Context {V : Type}.

Lemma get_set_eq (k : string) (v : V) (d : dict V) :
  Dict.get k (Dict.set k v d) = Some v.
Proof.
  induction d as [|[k' v'] d IH]; cbn.
  - now rewrite String.eqb_refl.
  - destruct (String.eqb k' k) eqn:E; cbn; rewrite E; [reflexivity|exact IH].
Qed.

Lemma get_set_ne (k k' : string) (v : V) (d : dict V) :
  k' <> k -> Dict.get k (Dict.set k' v d) = Dict.get k d.
Proof.
  intros N. apply String.eqb_neq in N.
  induction d as [|[k0 v0] d IH]; cbn.
  - now rewrite N.
  - destruct (String.eqb k0 k') eqn:E; cbn.
    + apply String.eqb_eq in E. subst k0. now rewrite N.
    + destruct (String.eqb k0 k); [reflexivity|exact IH].
Qed.

Lemma keys_set (k : string) (v : V) (d : dict V) :
  Dict.keys (Dict.set k v d) =
  if Dict.mem k d then Dict.keys d else (Dict.keys d ++ [k])%list.
Proof.
  unfold Dict.keys. induction d as [|[k0 v0] d IH]; cbn.
  - reflexivity.
  - destruct (String.eqb k0 k) eqn:E; cbn.
    + reflexivity.
    + rewrite IH. destruct (Dict.mem k d); reflexivity.
Qed.

Lemma nodup_set (k : string) (v : V) (d : dict V) :
  NoDup (Dict.keys d) -> NoDup (Dict.keys (Dict.set k v d)).
Proof.
  intros N. rewrite keys_set. destruct (Dict.mem k d) eqn:M; [exact N|].
  apply NoDup_app; [exact N|repeat constructor; intros []|].
  intros x Hx [<-|[]]. apply mem_keys in Hx. congruence.
Qed.

End DictLaws.

(** ** The request parser, field by field *)

Lemma request_line_step (request_text : string) :
  (let parts := request_line_tokens request_text in
   if (3 <=? List.length parts)%nat then
     p0 <- index parts 0 ;;
     p1 <- index parts 1 ;;
     p2 <- index parts 2 ;;
     Ok (set_request_line p0 p1 p2 HTTPRequest_init)
   else Ok HTTPRequest_init) = Ok (after_request_line request_text).
Proof.
  unfold after_request_line. cbv zeta.
  destruct (request_line_tokens request_text) as [|p0 [|p1 [|p2 parts]]];
    reflexivity.
Qed.

(** The header loop adds the pairs of the header lines in their order. *)
Lemma parse_header_lines_pairs (lines : list string) :
  forall (i : nat) (hdrs : dict string),
    exists body_start,
      parse_header_lines i lines hdrs =
      Ok (fold_left (fun d kv => Dict.set (fst kv) (snd kv) d)
            (header_pairs lines) hdrs, body_start).
Proof.
  induction lines as [|line rest IH]; intros i hdrs;
    cbn [parse_header_lines header_pairs].
  - now exists 0%nat.
  - destruct (String.eqb (strip line) ""); [now exists (i + 1)%nat|].
    unfold header_pair. destruct (contains ":" (strip line)) eqn:C.
    + destruct (unpack2_split1 ":"%char _ C) as (h & t & -> & ->).
      cbn [bind fold_left fst snd]. apply IH.
    + rewrite (partition_no_sep ":"%char _ C). apply IH.
Qed.


(** The fields of the request [parse_request] returns. *)
Lemma parse_request_fields (request_text : string) (r : HTTPRequest) :
  parse_request HTTPRequest_init request_text = Ok r ->
  exists s2,
    parse_host (set_headers (header_block request_text)
                  (after_request_line request_text)) = Ok s2 /\
    method r = method (after_request_line request_text) /\
    path r = path (after_request_line request_text) /\
    protocol r = protocol (after_request_line request_text) /\
    headers r = header_block request_text /\
    host r = host s2 /\ port r = port s2 /\ url r = url s2 /\
    body r =
    (let lines := request_lines request_text in
     let body_start := body_start_of request_text in
     if ((0 <? body_start) && (body_start <? List.length lines))%nat
     then join nl (skipn body_start lines) else "").
Proof.
  unfold parse_request. fold (request_lines request_text).
  destruct (split_head LF (strip request_text)) as [rest HL].
  fold (request_lines request_text) in HL.
  assert (I0 : index (request_lines request_text) 0 =
               Ok (nth 0 (request_lines request_text) "")).
  { rewrite HL. reflexivity. }
  rewrite I0. cbn [bind]. fold (request_line_tokens request_text).
  pose proof (request_line_step request_text) as RL. cbv zeta in RL.
  rewrite RL. cbn [bind].
  assert (H0 : headers (after_request_line request_text) = []).
  { unfold after_request_line. cbv zeta.
    destruct (3 <=? _)%nat; reflexivity. }
  rewrite H0. unfold body_start_of.
  destruct (header_block_eq request_text) as [bs ->]. cbn [bind].
  destruct (parse_host (set_headers (header_block request_text)
                          (after_request_line request_text)))
    as [s2|e] eqn:PH; cbn [bind]; [|discriminate].
  pose proof (parse_host_spec (set_headers (header_block request_text)
                                 (after_request_line request_text))) as PS.
  rewrite PH in PS.
  destruct (bad_host_port _); [discriminate PS|].
  destruct PS as (s2' & [= <-] & Hh & _ & _ & _ & _ & Hme & Hpa & Hpr).
  cbn [set_headers headers method path protocol] in Hh, Hme, Hpa, Hpr.
  set (s3 := if ((0 <? bs) && (bs <? List.length (request_lines request_text)))%nat
             then set_body (join nl (skipn bs (request_lines request_text))) s2
             else s2).
  assert (B0 : body s2 = "").
  { revert PH. unfold parse_host. cbn [set_headers headers].
    destruct (Dict.mem "Host" (header_block request_text));
      [|intros [= <-]; unfold after_request_line; cbv zeta;
        destruct (3 <=? _)%nat; reflexivity].
    destruct (Dict.item (header_block request_text) "Host") as [h|e];
      cbn [bind]; [|discriminate].
    cbn [host set_host]. destruct (contains ":" h).
    - destruct (index (split ":"%char h) 0) as [h0|e]; cbn [bind];
        [|discriminate].
      destruct (index (split ":"%char h) 1) as [p1|e]; cbn [bind];
        [|discriminate].
      destruct (int_or_raise p1) as [n|e]; cbn [bind]; [|discriminate].
      intros [= <-]. unfold after_request_line. cbv zeta.
      destruct (3 <=? _)%nat; reflexivity.
    - cbn [bind]. intros [= <-]. unfold after_request_line. cbv zeta.
      destruct (3 <=? _)%nat; reflexivity. }
  destruct (parse_content_type_spec s3)
    as (r' & -> & Rh & Rme & Rpa & Rpr & Ru & Rpo & Rho & Rb & _).
  intros [= <-]. exists s2. split; [reflexivity|].
  assert (E3 : headers s3 = headers s2 /\ method s3 = method s2 /\
               path s3 = path s2 /\ protocol s3 = protocol s2 /\
               url s3 = url s2 /\ port s3 = port s2 /\ host s3 = host s2).
  { subst s3. destruct ((0 <? bs) && (bs <? _))%nat; repeat split. }
  destruct E3 as (E3h & E3me & E3pa & E3pr & E3u & E3po & E3ho).
  rewrite Rh, Rme, Rpa, Rpr, Ru, Rpo, Rho, Rb.
  rewrite E3h, E3me, E3pa, E3pr, E3u, E3po, E3ho, Hh, Hme, Hpa, Hpr.
  repeat split. cbv zeta. subst s3.
  destruct ((0 <? bs) && (bs <? _))%nat; [reflexivity|exact B0].
Qed.

Lemma fold_set_get (k : string) (pairs : list (string * string)) :
  forall d : dict string,
    Dict.get k (fold_left (fun d kv => Dict.set (fst kv) (snd kv) d) pairs d) =
    match List.find (fun kv => String.eqb (fst kv) k) (List.rev pairs) with
    | Some kv => Some (snd kv)
    | None => Dict.get k d
    end.
Proof.
  induction pairs as [|[n v] pairs IH]; intros d; cbn [fold_left List.rev fst snd].
  - reflexivity.
  - rewrite IH, find_app.
    destruct (List.find _ (List.rev pairs)); [reflexivity|].
    cbn [List.find fst snd]. destruct (String.eqb n k) eqn:E.
    + apply String.eqb_eq in E. subst n. apply get_set_eq.
    + apply String.eqb_neq in E. now apply get_set_ne.
Qed.

Lemma fold_set_keys (pairs : list (string * string)) :
  forall (d : dict string) (seen : list string),
    (forall x, In x seen <-> In x (Dict.keys d)) ->
    Dict.keys (fold_left (fun d kv => Dict.set (fst kv) (snd kv) d) pairs d) =
    (Dict.keys d ++ first_occurrences (map fst pairs) seen)%list.
Proof.
  induction pairs as [|[n v] pairs IH]; intros d seen S;
    cbn [fold_left map first_occurrences fst snd].
  - now rewrite app_nil_r.
  - assert (M : existsb (String.eqb n) seen = Dict.mem n d).
    { destruct (Dict.mem n d) eqn:M.
      - apply existsb_exists. exists n. split; [|apply String.eqb_refl].
        apply S. now apply mem_keys.
      - destruct (existsb (String.eqb n) seen) eqn:X; [|reflexivity].
        apply existsb_exists in X as (x & Hx & Ex).
        apply String.eqb_eq in Ex. subst x. apply S, mem_keys in Hx.
        congruence. }
    rewrite M. destruct (Dict.mem n d) eqn:Md.
    + rewrite (IH (Dict.set n v d) seen).
      * now rewrite keys_set, Md.
      * intros x. now rewrite keys_set, Md.
    + rewrite (IH (Dict.set n v d) (n :: seen)).
      * rewrite keys_set, Md, <- app_assoc. reflexivity.
      * intros x. rewrite keys_set, Md, in_app_iff. cbn. rewrite S.
        intuition.
Qed.

Lemma fold_set_nodup (pairs : list (string * string)) :
  forall d : dict string,
    NoDup (Dict.keys d) ->
    NoDup (Dict.keys
             (fold_left (fun d kv => Dict.set (fst kv) (snd kv) d) pairs d)).
Proof.
  induction pairs as [|kv pairs IH]; intros d N; cbn [fold_left].
  - exact N.
  - apply IH. now apply nodup_set.
Qed.

Lemma header_block_pairs (request_text : string) :
  header_block request_text =
  fold_left (fun d kv => Dict.set (fst kv) (snd kv) d)
    (header_pairs (skipn 1 (request_lines request_text))) [].
Proof.
  unfold header_block.
  destruct (parse_header_lines_pairs (skipn 1 (request_lines request_text)) 1 [])
    as [bs ->].
  reflexivity.
Qed.

(** X1: the headers of a parsed request are the pairs of the header lines
    up to the first blank line: the names are distinct and stand in the
    order of their first occurrence, and the value of a name is the value
    of the last line with that name. *)
Theorem repeated_header_last_wins (request_text : string) (r : HTTPRequest) :
  parse_request HTTPRequest_init request_text = Ok r ->
  let pairs := header_pairs (skipn 1 (request_lines request_text)) in
  NoDup (Dict.keys (headers r)) /\
  Dict.keys (headers r) = first_occurrences (map fst pairs) [] /\
  forall name : string,
    Dict.get name (headers r) =
    option_map snd
      (List.find (fun kv => String.eqb (fst kv) name) (List.rev pairs)).
Proof.
  intros E pairs.
  destruct (parse_request_fields _ _ E) as (_ & _ & _ & _ & _ & -> & _).
  rewrite header_block_pairs. fold pairs. split; [|split].
  - apply fold_set_nodup. constructor.
  - now rewrite (fold_set_keys pairs [] []).
  - intros name. rewrite fold_set_get.
    destruct (List.find _ (List.rev pairs)); reflexivity.
Qed.

Lemma repeated_header_last_wins_witness :
  exists r,
    parse_request HTTPRequest_init repeated_header_request = Ok r /\
    Dict.keys (headers r) = ["Accept"; "Host"] /\
    Dict.get "Accept" (headers r) = Some "b".
Proof.
  eexists. split; [reflexivity|].
  destruct (repeated_header_last_wins repeated_header_request _ eq_refl)
    as (_ & K & G).
  split; [exact K|exact (G "Accept")].
Defined.

(** X2: a request text of white space only, the empty text included,
    parses to the request of [HTTPRequest.__init__]: every field empty, no
    header, no port. *)
Theorem blank_text_parses_to_empty_request (request_text : string) :
  strip request_text = "" ->
  parse_request HTTPRequest_init request_text = Ok HTTPRequest_init.
Proof. intros E. unfold parse_request. rewrite E. reflexivity. Qed.

Lemma blank_text_parses_to_empty_request_witness :
  parse_request HTTPRequest_init ("  " ++ nl ++ " ") = Ok HTTPRequest_init.
Proof. apply blank_text_parses_to_empty_request. reflexivity. Defined.

(** What the Host block leaves in host, port and url. *)
Lemma parse_host_fields (self self' : HTTPRequest) :
  parse_host self = Ok self' ->
  match Dict.get "Host" (headers self) with
  | None => self' = self
  | Some h =>
      host self' = fst (partition ":"%char h) /\
      (if contains ":" h
       then exists n, PyStr.int (port_text h) = Some n /\ port self' = Some n
       else port self' = port self) /\
      url self' =
      scheme_of (port self') ++ "://" ++ host self' ++
      port_suffix (port self') ++ path self
  end.
Proof.
  unfold parse_host.
  destruct (Dict.get "Host" (headers self)) as [h|] eqn:G.
  - assert (M : Dict.mem "Host" (headers self) = true)
      by (apply mem_get; now exists h).
    rewrite M, (item_get _ _ _ G). cbn [bind set_host host].
    destruct (contains ":" h) eqn:C.
    + destruct (partition_contains ":"%char h C) as (h0 & t & P).
      rewrite index_split_0, P. cbn [bind fst].
      assert (I1 : index (split ":"%char h) 1 = Ok (port_text h)).
      { pose proof (index_split_1 _ _ _ _ P) as I. unfold index in I |- *.
        unfold port_text.
        destruct (nth_error (split ":"%char h) 1) as [x|] eqn:N;
          [|discriminate I].
        now rewrite (nth_error_nth _ _ "" N). }
      rewrite I1. cbn [bind]. unfold int_or_raise.
      destruct (PyStr.int (port_text h)) as [n|]; cbn [bind]; [|discriminate].
      intros [= <-]. cbn. repeat split. now exists n.
    + cbn [bind]. intros [= <-]. cbn.
      rewrite (partition_no_sep ":"%char h C). repeat split.
  - apply mem_false_get in G. rewrite G. now intros [= <-].
Qed.

(** X3: in a parsed request without a Host header host and url are empty
    and there is no port.  With a Host header of value [h] the host is the
    text of [h] before its first colon; a port is recorded exactly when [h]
    has a colon, and it is the integer of the text between the first and
    the second colon; the url is scheme, [://], host, port suffix and
    path. *)
Theorem host_port_url_of_host_header (request_text : string) (r : HTTPRequest) :
  parse_request HTTPRequest_init request_text = Ok r ->
  match Dict.get "Host" (headers r) with
  | None => host r = "" /\ port r = None /\ url r = ""
  | Some h =>
      host r = fst (partition ":"%char h) /\
      contains ":" (host r) = false /\
      (if contains ":" h
       then exists n, PyStr.int (port_text h) = Some n /\ port r = Some n
       else port r = None) /\
      url r =
      scheme_of (port r) ++ "://" ++ host r ++ port_suffix (port r) ++ path r
  end.
Proof.
  intros E.
  destruct (parse_request_fields _ _ E)
    as (s2 & PH & _ & Hpa & _ & Hh & -> & -> & -> & _).
  apply parse_host_fields in PH. cbn [set_headers headers path port] in PH.
  rewrite Hh, Hpa.
  assert (I : host (after_request_line request_text) = "" /\
              port (after_request_line request_text) = None /\
              url (after_request_line request_text) = "").
  { unfold after_request_line. cbv zeta.
    destruct (3 <=? _)%nat; repeat split. }
  destruct I as (I1 & I2 & I3).
  destruct (Dict.get "Host" (header_block request_text)) as [h|].
  - destruct PH as (H1 & H2 & H3). repeat split.
    + exact H1.
    + rewrite H1. destruct (partition ":"%char h) as [h0 [t|]] eqn:P.
      * now apply partition_Some in P.
      * apply partition_None in P as [-> P]. exact P.
    + destruct (contains ":" h); [exact H2|]. now rewrite H2.
    + exact H3.
  - subst s2. cbn [set_headers host port url]. now repeat split.
Qed.

Lemma host_port_url_of_host_header_witness :
  exists r,
    parse_request HTTPRequest_init two_colon_request = Ok r /\
    host r = "example.com" /\ port r = Some 8080%Z /\
    url r = "http://example.com:8080/a".
Proof.
  eexists. split; [reflexivity|].
  pose proof (host_port_url_of_host_header two_colon_request _ eq_refl) as H.
  cbn in H. destruct H as (H1 & _ & _ & H3). repeat split.
Defined.

(** X4: the trimmed first line of a parsed request starts with method,
    space, path, space, protocol, and what follows the protocol is nothing
    or starts with a space; when the line has fewer than three tokens the
    three fields are empty.  No field holds a space, so two spaces in a row
    give an empty field. *)
Theorem request_line_fields (request_text : string) (r : HTTPRequest) :
  parse_request HTTPRequest_init request_text = Ok r ->
  let line := strip (nth 0 (request_lines request_text) "") in
  contains " " (method r) = false /\
  contains " " (path r) = false /\
  contains " " (protocol r) = false /\
  if (3 <=? List.length (request_line_tokens request_text))%nat
  then exists rest,
      line = method r ++ " " ++ path r ++ " " ++ protocol r ++ rest /\
      (rest = "" \/ exists more, rest = " " ++ more)
  else method r = "" /\ path r = "" /\ protocol r = "".
Proof.
  intros E line.
  destruct (parse_request_fields _ _ E) as (_ & _ & -> & -> & -> & _).
  pose proof (join_split " "%char line) as J.
  pose proof (split_no_sep " "%char line) as F.
  unfold after_request_line. cbv zeta.
  change (split " "%char line) with (request_line_tokens request_text) in J, F.
  destruct (request_line_tokens request_text) as [|p0 [|p1 [|p2 more]]];
    cbn [List.length Nat.leb]; try (repeat split; reflexivity).
  inversion F as [|? ? F0 F']; subst.
  inversion F' as [|? ? F1 F'']; subst.
  inversion F'' as [|? ? F2 _]; subst.
  cbn [set_request_line method path protocol nth].
  repeat split; try assumption.
  destruct more as [|m more].
  - exists "". split; [|now left]. rewrite append_empty_r. now rewrite <- J.
  - exists (" " ++ join " " (m :: more)). split; [|right; now eexists].
    now rewrite <- J.
Qed.

Lemma request_line_fields_witness :
  exists r,
    parse_request HTTPRequest_init double_space_request = Ok r /\
    path r = "" /\ protocol r = "/a" /\
    exists rest,
      "GET  /a HTTP/1.1" =
      method r ++ " " ++ path r ++ " " ++ protocol r ++ rest.
Proof.
  eexists. split; [reflexivity|].
  destruct (request_line_fields double_space_request _ eq_refl)
    as (_ & _ & _ & rest & H & _).
  split; [reflexivity|]. split; [reflexivity|]. exists rest. exact H.
Defined.





(** ** The resolver and the builder together *)

(** The parts of the body, whatever the location. *)
Lemma body_parts_cases (g : FuzzerGenerator) (loc : location) :
  body_parts g loc =
  Ok (if negb (String.eqb (body (request g)) "") &&
         sends_body (method (request g))
      then if location_eqb loc body_param && is_form (request g)
           then ["-d " ++ dq ++ body (request g) ++ dq]
           else if location_eqb loc json_field && is_json (request g)
                then ["-d '" ++ body (request g) ++ "'"; "-mode pitchfork";
                      "-json '" ++ str_of_position (fuzz_position g) ++ ":FUZZ'"]
                else ["-d '" ++ body (request g) ++ "'"]
      else []).
Proof.
  unfold body_parts.
  destruct (negb (String.eqb (body (request g)) "") &&
            sends_body (method (request g))); [|reflexivity].
  destruct (location_eqb loc body_param && is_form (request g)).
  - destruct (mapM_total (fuzz_field (param_to_fuzz g))
                (fuzzed_segment (param_to_fuzz g))
                (split "&"%char (body (request g)))) as (ps & -> & _).
    { intros x _. apply fuzz_field_spec. }
    reflexivity.
  - destruct (location_eqb loc json_field && is_json (request g)); reflexivity.
Qed.

(** The command of a generator whose target is not the URL query. *)
Lemma cmd_parts_plain (g : FuzzerGenerator) (loc : location) :
  fuzz_location g = Some loc ->
  loc <> url_param ->
  exists bs,
    body_parts g loc = Ok bs /\
    cmd_parts g =
    Ok (("ffuf -w " ++ wordlist g) ::
        ("-X " ++ method (request g)) ::
        ("-u " ++ dq ++ url (request g) ++ dq) ::
        List.app (map (header_flag (param_to_fuzz g) loc) (headers (request g)))
                 bs).
Proof.
  intros L N. apply (cmd_parts_shape g loc _ L). now apply url_part_other.
Qed.

(** X6: [find_param_location] changes nothing of a generator but
    [fuzz_location] and [fuzz_position], and a second call on the generator
    it leaves returns the same answer and the same generator. *)
Theorem find_param_location_idempotent
    (self g : FuzzerGenerator) (found : bool) :
  find_param_location self = Ok (found, g) ->
  request g = request self /\
  param_to_fuzz g = param_to_fuzz self /\
  wordlist g = wordlist self /\
  find_param_location g = Ok (found, g).
Proof.
  intros E. destruct (find_inv _ _ _ E) as (t & R & O).
  assert (F : request g = request self /\
              param_to_fuzz g = param_to_fuzz self /\
              wordlist g = wordlist self)
    by (inversion O; subst; repeat split).
  destruct F as (F1 & F2 & F3). repeat split; try assumption.
  destruct (find_param_location_spec g) as (t' & R' & O').
  rewrite F1, F2 in R'.
  rewrite (resolves_functional _ _ _ _ R' R) in O'.
  remember (find_param_location g) as res eqn:Eres.
  inversion O; subst; inversion O'; subst; try reflexivity.
  all: match goal with
       | H : _ = Some _ |- _ => try discriminate H
       | _ => idtac
       end.
Qed.

Lemma find_param_location_idempotent_witness :
  find_param_location
    (set_fuzz_location json_field
       (set_fuzz_position "user.id" user_id_generator)) =
  Ok (true,
      set_fuzz_location json_field
        (set_fuzz_position "user.id" user_id_generator)).
Proof.
  apply (find_param_location_idempotent user_id_generator).
  vm_compute. reflexivity.
Defined.




Lemma header_flag_verbatim (p : string) (loc : location)
    (hdrs : dict string) :
  loc <> header -> loc <> cookie ->
  map (header_flag p loc) hdrs = map verbatim_flag hdrs.
Proof.
  intros N1 N2. apply map_ext. intros [n v]. unfold header_flag, verbatim_flag.
  destruct loc; try congruence; reflexivity.
Qed.

(** X8: when the resolved target is a header, the command is the word
    list, the method, the URL of the request as it is, one flag per header
    in the order of the headers, the value of the header named like the
    target replaced by [FUZZ] and every other value as it is, and the body
    as the data payload when there is one to send. *)
Theorem header_target_command (self g : FuzzerGenerator) :
  find_param_location self = Ok (true, g) ->
  fuzz_location g = Some header ->
  let r := request self in
  let p := param_to_fuzz self in
  In p (Dict.keys (headers r)) /\
  cmd_parts g =
  Ok (("ffuf -w " ++ wordlist self) ::
      ("-X " ++ method r) ::
      ("-u " ++ dq ++ url r ++ dq) ::
      List.app
        (map (fun nv : string * string =>
                "-H " ++ dq ++ fst nv ++ ": " ++
                (if String.eqb (fst nv) p then "FUZZ" else snd nv) ++ dq)
             (headers r))
        (payload_of r Header)).
Proof.
  intros E L r p. destruct (find_inv _ _ _ E) as (t & R & O).
  inversion O; subst; cbn in L; try discriminate L.
  inversion R as [| | |N1 N2 N3 I4| |]. split; [exact I4|].
  destruct (cmd_parts_plain (set_fuzz_location header self) header eq_refl
              ltac:(discriminate)) as (bs & B & C).
  rewrite body_parts_cases in B. injection B as <-.
  rewrite C. cbn [request wordlist param_to_fuzz set_fuzz_location].
  fold r p. apply f_equal. do 3 apply f_equal. apply f_equal2.
  - apply map_ext. intros [n v]. unfold header_flag. cbn [location_eqb andb fst snd].
    destruct (String.eqb n p); reflexivity.
  - unfold payload_of. fold r. destruct (negb _ && _); reflexivity.
Qed.

Lemma header_target_command_witness :
  cmd_parts (set_fuzz_location header header_generator) =
  Ok ["ffuf -w words.txt"; "-X POST";
      "-u " ++ dq ++ "http://example.com/api" ++ dq;
      "-H " ++ dq ++ "Host: example.com" ++ dq;
      "-H " ++ dq ++ "X-Token: FUZZ" ++ dq;
      "-d 'payload'"].
Proof.
  destruct (header_target_command header_generator
              (set_fuzz_location header header_generator)) as (_ & C).
  - vm_compute. reflexivity.
  - reflexivity.
  - exact C.
Defined.

(** X9: when the resolved target is a cookie, a segment of the rebuilt
    Cookie value is the target followed by [=FUZZ]: the marker is in the
    command. *)
Theorem cookie_target_marker (self g : FuzzerGenerator) :
  find_param_location self = Ok (true, g) ->
  fuzz_location g = Some cookie ->
  let p := param_to_fuzz self in
  exists v parts,
    Dict.get "Cookie" (headers (request self)) = Some v /\
    In (p ++ "=FUZZ") (map (rebuild_cookie_segment p) (split ";"%char v)) /\
    cmd_parts g = Ok parts /\
    In ("-H " ++ dq ++ "Cookie: " ++
        join "; " (map (rebuild_cookie_segment p) (split ";"%char v)) ++ dq)
       parts.
Proof.
  intros E L p. destruct (find_inv _ _ _ E) as (t & R & O).
  inversion O; subst; cbn in L; try discriminate L.
  inversion R as [| | | |N1 N2 N3 N4 (v & sg & n & rest & G & Hin & Hs & Hn & Hp)|].
  destruct (cmd_parts_plain (set_fuzz_location cookie self) cookie eq_refl
              ltac:(discriminate)) as (bs & _ & C).
  exists v. eexists. split; [exact G|]. split; [|split; [exact C|]].
  - apply in_map_iff. exists sg. split; [|exact Hin].
    unfold rebuild_cookie_segment. subst sg.
    change (n ++ "=" ++ rest) with (n ++ String "="%char rest).
    rewrite (partition_app "="%char n rest Hn).
    fold p in Hp. rewrite Hp, String.eqb_refl. reflexivity.
  - right. right. right. apply in_or_app. left.
    cbn [request param_to_fuzz set_fuzz_location].
    now apply cookie_flag_in.
Qed.

Lemma cookie_target_marker_witness :
  exists v,
    Dict.get "Cookie" (headers (request cookie_generator)) = Some v /\
    In "session=FUZZ"
       (map (rebuild_cookie_segment "session") (split ";"%char v)).
Proof.
  destruct (cookie_target_marker cookie_generator
              (set_fuzz_location cookie cookie_generator))
    as (v & parts & G & M & _).
  - vm_compute. reflexivity.
  - reflexivity.
  - exists v. split; [exact G|exact M].
Defined.





(** X11: when the resolved target is the form body, the request has the
    form flag and a body, and the command is the word list, the method, the
    URL and every header as they are, followed by the body as it is when
    the method is POST, PUT or PATCH and by nothing otherwise: no part of
    the command carries the marker in place of a value. *)
Theorem form_target_command (self g : FuzzerGenerator) :
  find_param_location self = Ok (true, g) ->
  fuzz_location g = Some body_param ->
  let r := request self in
  is_form r = true /\ body r <> "" /\
  cmd_parts g =
  Ok (("ffuf -w " ++ wordlist self) ::
      ("-X " ++ method r) ::
      ("-u " ++ dq ++ url r ++ dq) ::
      List.app (map verbatim_flag (headers r))
               (if sends_body (method r)
                then ["-d " ++ dq ++ body r ++ dq] else [])).
Proof.
  intros E L r. subst r. destruct (find_inv _ _ _ E) as (t & R & O).
  inversion O; subst; cbn in L; try discriminate L.
  inversion R as [|N1 (Hf & Hb & _)| | | |].
  split; [exact Hf|]. split; [exact Hb|].
  destruct (cmd_parts_plain (set_fuzz_location body_param self) body_param
              eq_refl ltac:(discriminate)) as (bs & B & C).
  rewrite body_parts_cases in B. injection B as <-.
  rewrite C. cbn [request wordlist param_to_fuzz set_fuzz_location].
  apply f_equal. do 3 apply f_equal. apply f_equal2.
  - apply header_flag_verbatim; discriminate.
  - rewrite Hf. apply String.eqb_neq in Hb. rewrite Hb.
    cbn [negb andb location_eqb]. destruct (sends_body (method (request self))); reflexivity.
Qed.

Lemma form_target_command_witness :
  cmd_parts (set_fuzz_location body_param form_get_generator) =
  Ok ["ffuf -w words.txt"; "-X GET"; "-u " ++ dq ++ dq;
      "-H " ++ dq ++ "Content-Type: application/x-www-form-urlencoded" ++ dq].
Proof.
  destruct (form_target_command form_get_generator
              (set_fuzz_location body_param form_get_generator))
    as (_ & _ & C).
  - vm_compute. reflexivity.
  - reflexivity.
  - exact C.
Defined.

(** X12: when the resolved target is a JSON field, the request has the
    JSON flag, its body parses, the generator records the path of the
    field, and the command is the word list, the method, the URL and every
    header as they are, followed, when the method is POST, PUT or PATCH, by
    the body as it is, the pitchfork mode and the recorded path with
    [:FUZZ], and by nothing otherwise. *)
Theorem json_target_command (self g : FuzzerGenerator) :
  find_param_location self = Ok (true, g) ->
  fuzz_location g = Some json_field ->
  let r := request self in
  exists json_path,
    in_json_body r (param_to_fuzz self) json_path /\
    fuzz_position g = Some json_path /\
    cmd_parts g =
    Ok (("ffuf -w " ++ wordlist self) ::
        ("-X " ++ method r) ::
        ("-u " ++ dq ++ url r ++ dq) ::
        List.app (map verbatim_flag (headers r))
                 (if sends_body (method r)
                  then ["-d '" ++ body r ++ "'"; "-mode pitchfork";
                        "-json '" ++ json_path ++ ":FUZZ'"]
                  else [])).
Proof.
  intros E L r. subst r. destruct (find_inv _ _ _ E) as (t & R & O).
  inversion O; subst; cbn in L; try discriminate L.
  inversion R as [| |jp N1 N2 I3| | |]. subst.
  exists json_path. split; [exact I3|]. split; [reflexivity|].
  destruct I3 as (Hj & Hb & _).
  destruct (cmd_parts_plain
              (set_fuzz_location json_field (set_fuzz_position json_path self))
              json_field eq_refl ltac:(discriminate)) as (bs & B & C).
  rewrite body_parts_cases in B. injection B as <-.
  rewrite C.
  cbn [request wordlist param_to_fuzz fuzz_position set_fuzz_location
       set_fuzz_position].
  apply f_equal. do 3 apply f_equal. apply f_equal2.
  - apply header_flag_verbatim; discriminate.
  - rewrite Hj. apply String.eqb_neq in Hb. rewrite Hb.
    cbn [negb andb location_eqb str_of_position].
    destruct (sends_body (method (request self))); reflexivity.
Qed.

Lemma json_target_command_witness :
  exists json_path,
    fuzz_position
      (set_fuzz_location json_field
         (set_fuzz_position "user.id" user_id_get_generator)) =
    Some json_path /\
    cmd_parts
      (set_fuzz_location json_field
         (set_fuzz_position "user.id" user_id_get_generator)) =
    Ok ["ffuf -w words.txt"; "-X GET";
        "-u " ++ dq ++ "http://example.com/users" ++ dq;
        "-H " ++ dq ++ "Host: example.com" ++ dq;
        "-H " ++ dq ++ "Content-Type: application/json" ++ dq].
Proof.
  destruct (json_target_command user_id_get_generator
              (set_fuzz_location json_field
                 (set_fuzz_position "user.id" user_id_get_generator)))
    as (jp & _ & P & C).
  - vm_compute. reflexivity.
  - reflexivity.
  - exists jp. split; [exact P|exact C].
Defined.

(** ** The search in a JSON document, continued *)




Lemma has_key_dict (key : string) (items : list (string * json)) :
  has_key key (JDict items) <->
  exists k value, In (k, value) items /\ (k = key \/ has_key key value).
Proof.
  split.
  - intros H. inversion H as [? value Hin|? k value Hin Hk|]; subst.
    + exists key, value. split; [exact Hin|now left].
    + exists k, value. split; [exact Hin|now right].
  - intros (k & value & Hin & [->|Hk]).
    + now apply has_key_here with value.
    + now apply has_key_below with k value.
Qed.

Lemma has_key_list (key : string) (items : list json) :
  has_key key (JList items) <->
  exists item, In item items /\ has_key key item.
Proof.
  split.
  - intros H. inversion H as [| |? item Hin Hk]; subst. now exists item.
  - intros (item & Hin & Hk). now apply has_key_element with item.
Qed.

(** The keys of [key_paths] are the keys of the objects of the document. *)
Lemma key_paths_has_key (key : string) (document : json) :
  forall path : string,
    (exists q, In (key, q) (key_paths document path)) <->
    has_key key document.
Proof.
  induction document as [| b | literal | s | items IH | items IH]
    using json_induction; intros path;
    try (cbn; split; [intros [q []]|intros H; inversion H]).
  - rewrite has_key_list. cbn [key_paths]. generalize 0%nat.
    induction IH as [|item items Hitem _ IHitems]; intros i.
    + cbn. split; [intros [q []]|intros (x & [] & _)].
    + cbn -[String.append str_of_nat]. split.
      * intros (q & Hin). apply in_app_or in Hin as [Hin|Hin].
        -- exists item. split; [now left|].
           apply (Hitem (path ++ "[" ++ str_of_nat i ++ "]")). now exists q.
        -- destruct (proj1 (IHitems (S i)) (ex_intro _ q Hin)) as (x & Hx & Hk).
           exists x. split; [now right|exact Hk].
      * intros (x & [<-|Hx] & Hk).
        -- apply (Hitem (path ++ "[" ++ str_of_nat i ++ "]")) in Hk as (q & Hq).
           exists q. apply in_or_app. now left.
        -- destruct (proj2 (IHitems (S i)) (ex_intro _ x (conj Hx Hk)))
             as (q & Hq).
           exists q. apply in_or_app. now right.
  - rewrite has_key_dict. cbn [key_paths].
    induction IH as [|[k value] items Hvalue _ IHitems].
    + cbn. split; [intros [q []]|intros (x & y & [] & _)].
    + cbn [snd] in Hvalue. cbn -[String.append]. split.
      * intros (q & [Heq|Hin]).
        -- injection Heq as -> _. exists key, value. split; [now left|now left].
        -- apply in_app_or in Hin as [Hin|Hin].
           ++ exists k, value. split; [now left|]. right.
              apply (Hvalue (if negb (String.eqb path "")
                             then path ++ "." ++ k else k)).
              now exists q.
           ++ destruct (proj1 IHitems (ex_intro _ q Hin)) as (x & y & Hx & Hk).
              exists x, y. split; [now right|exact Hk].
      * intros (x & y & [Heq|Hx] & Hk).
        -- injection Heq as -> ->. destruct Hk as [->|Hk].
           ++ eexists. left. reflexivity.
           ++ apply (Hvalue (if negb (String.eqb path "")
                             then path ++ "." ++ x else x)) in Hk as (q & Hq).
              exists q. right. apply in_or_app. now left.
        -- destruct (proj2 IHitems (ex_intro _ x (ex_intro _ y (conj Hx Hk))))
             as (q & Hq).
           exists q. right. apply in_or_app. now right.
Qed.

(** X14: [_find_json_param] finds a path exactly when an object of the
    document, at any depth and through any arrays, has the key; a document
    that is a scalar, or holds no object with the key, gives nothing. *)
Theorem json_search_complete (document : json) (param path : string) :
  (exists found, find_json_path document param path = Some found) <->
  has_key param document.
Proof.
  rewrite find_json_path_first, <- (key_paths_has_key param document path).
  split.
  - intros (found & F).
    destruct (List.find _ (key_paths document path)) as [[k q]|] eqn:E;
      [|discriminate F].
    apply find_some in E as [Hin Hk]. cbn [fst] in Hk.
    apply String.eqb_eq in Hk. subst k. now exists q.
  - intros (q & Hin).
    destruct (List.find (fun kp => String.eqb (fst kp) param)
                (key_paths document path)) as [[k q']|] eqn:E.
    + now exists q'.
    + exfalso. apply (find_none _ _ E) in Hin. cbn [fst] in Hin.
      now rewrite String.eqb_refl in Hin.
Qed.

(** ** The command line *)












(** ** White space at the ends *)

Lemma rev_acc_app (s acc : string) : rev_acc s acc = PyStr.rev s ++ acc.
Proof.
  unfold PyStr.rev. revert acc. induction s as [|c s IH]; intros acc; cbn.
  - reflexivity.
  - rewrite IH, (IH (String c "")). now rewrite append_assoc.
Qed.

Lemma rev_app (a b : string) : PyStr.rev (a ++ b) = PyStr.rev b ++ PyStr.rev a.
Proof.
  induction a as [|c a IH].
  - cbn. now rewrite append_empty_r.
  - change (String c a ++ b) with (String c (a ++ b)).
    unfold PyStr.rev at 1 3. cbn [rev_acc].
    rewrite !rev_acc_app, IH. now rewrite append_assoc.
Qed.

Lemma rev_involutive (s : string) : PyStr.rev (PyStr.rev s) = s.
Proof.
  induction s as [|c s IH]; [reflexivity|].
  unfold PyStr.rev at 2. cbn [rev_acc]. rewrite rev_acc_app, rev_app, IH.
  reflexivity.
Qed.

Section Strip.

Variable sp1 : ascii -> bool.

Lemma lstrip_by_length (n : nat) :
  forall s, (String.length s <= n)%nat ->
            (String.length (lstrip_by sp1 s) <= String.length s)%nat.
Proof.
  induction n as [|n IH]; intros s H.
  - destruct s; [cbn; lia|cbn in H; lia].
  - destruct s as [|c1 s1]; [cbn; lia|]. cbn [lstrip_by].
    cbn [String.length] in *.
    destruct (sp1 c1).
    { specialize (IH s1 ltac:(lia)). lia. }
    destruct s1 as [|c2 s2]; [cbn; lia|]. cbn [String.length] in *.
    destruct (isspace2 c1 c2).
    { specialize (IH s2 ltac:(lia)). lia. }
    destruct s2 as [|c3 s3]; [cbn; lia|]. cbn [String.length] in *.
    destruct (isspace3 c1 c2 c3); [|cbn; lia].
    specialize (IH s3 ltac:(lia)). lia.
Qed.

Lemma lstrip_by_idempotent (n : nat) :
  forall s, (String.length s <= n)%nat ->
            lstrip_by sp1 (lstrip_by sp1 s) = lstrip_by sp1 s.
Proof.
  induction n as [|n IH]; intros s H.
  - destruct s; [reflexivity|cbn in H; lia].
  - destruct s as [|c1 s1]; [reflexivity|].
    cbn [String.length] in H.
    destruct (sp1 c1) eqn:E1.
    { cbn [lstrip_by]. rewrite E1. apply IH. lia. }
    destruct s1 as [|c2 s2].
    { cbn [lstrip_by]. rewrite E1. cbn [lstrip_by]. now rewrite E1. }
    cbn [String.length] in H.
    destruct (isspace2 c1 c2) eqn:E2.
    { cbn [lstrip_by]. rewrite E1, E2. apply IH. lia. }
    destruct s2 as [|c3 s3].
    { cbn [lstrip_by]. rewrite E1, E2. cbn [lstrip_by]. now rewrite E1, E2. }
    cbn [String.length] in H.
    destruct (isspace3 c1 c2 c3) eqn:E3.
    { cbn [lstrip_by]. rewrite E1, E2, E3. apply IH. lia. }
    cbn [lstrip_by]. rewrite E1, E2, E3. cbn [lstrip_by].
    now rewrite E1, E2, E3.
Qed.

(** What [lstrip_by] leaves is the end of the text. *)
Lemma lstrip_by_suffix (n : nat) :
  forall s, (String.length s <= n)%nat ->
            exists w, s = w ++ lstrip_by sp1 s.
Proof.
  induction n as [|n IH]; intros s H.
  - destruct s; [now exists ""|cbn in H; lia].
  - destruct s as [|c1 s1]; [now exists ""|].
    cbn [String.length] in H. cbn [lstrip_by].
    destruct (sp1 c1).
    { destruct (IH s1 ltac:(lia)) as [w Hw]. exists (String c1 w).
      cbn. now rewrite <- Hw. }
    destruct s1 as [|c2 s2]; [now exists ""|]. cbn [String.length] in H.
    destruct (isspace2 c1 c2).
    { destruct (IH s2 ltac:(lia)) as [w Hw]. exists (String c1 (String c2 w)).
      cbn. now rewrite <- Hw. }
    destruct s2 as [|c3 s3]; [now exists ""|]. cbn [String.length] in H.
    destruct (isspace3 c1 c2 c3); [|now exists ""].
    destruct (IH s3 ltac:(lia)) as [w Hw].
    exists (String c1 (String c2 (String c3 w))). cbn. now rewrite <- Hw.
Qed.

(** A text without white space at its start has none at the start of its
    beginnings. *)
Lemma lstrip_by_prefix (p q : string) :
  lstrip_by sp1 (p ++ q) = p ++ q -> lstrip_by sp1 p = p.
Proof.
  intros H.
  assert (L : forall s, (String.length (lstrip_by sp1 s) <= String.length s)%nat)
    by (intros s; apply (lstrip_by_length (String.length s)); lia).
  apply (f_equal String.length) in H.
  destruct p as [|c1 p1]; [reflexivity|].
  change (String c1 p1 ++ q) with (String c1 (p1 ++ q)) in H.
  cbn [lstrip_by] in H |- *. cbn [String.length] in H.
  destruct (sp1 c1).
  { specialize (L (p1 ++ q)). lia. }
  destruct p1 as [|c2 p2]; [reflexivity|].
  change (String c2 p2 ++ q) with (String c2 (p2 ++ q)) in H.
  cbn [String.length] in H.
  destruct (isspace2 c1 c2).
  { specialize (L (p2 ++ q)). lia. }
  destruct p2 as [|c3 p3]; [reflexivity|].
  change (String c3 p3 ++ q) with (String c3 (p3 ++ q)) in H.
  cbn [String.length] in H.
  destruct (isspace3 c1 c2 c3); [|reflexivity].
  specialize (L (p3 ++ q)). lia.
Qed.

Lemma lstrip_rev_by_idempotent (n : nat) :
  forall s, (String.length s <= n)%nat ->
            lstrip_rev_by sp1 (lstrip_rev_by sp1 s) = lstrip_rev_by sp1 s.
Proof.
  induction n as [|n IH]; intros s H.
  - destruct s; [reflexivity|cbn in H; lia].
  - destruct s as [|c1 s1]; [reflexivity|].
    cbn [String.length] in H.
    destruct (sp1 c1) eqn:E1.
    { cbn [lstrip_rev_by]. rewrite E1. apply IH. lia. }
    destruct s1 as [|c2 s2].
    { cbn [lstrip_rev_by]. rewrite E1. cbn [lstrip_rev_by]. now rewrite E1. }
    cbn [String.length] in H.
    destruct (isspace2 c2 c1) eqn:E2.
    { cbn [lstrip_rev_by]. rewrite E1, E2. apply IH. lia. }
    destruct s2 as [|c3 s3].
    { cbn [lstrip_rev_by]. rewrite E1, E2. cbn [lstrip_rev_by].
      now rewrite E1, E2. }
    cbn [String.length] in H.
    destruct (isspace3 c3 c2 c1) eqn:E3.
    { cbn [lstrip_rev_by]. rewrite E1, E2, E3. apply IH. lia. }
    cbn [lstrip_rev_by]. rewrite E1, E2, E3. cbn [lstrip_rev_by].
    now rewrite E1, E2, E3.
Qed.

Lemma lstrip_rev_by_suffix (n : nat) :
  forall s, (String.length s <= n)%nat ->
            exists w, s = w ++ lstrip_rev_by sp1 s.
Proof.
  induction n as [|n IH]; intros s H.
  - destruct s; [now exists ""|cbn in H; lia].
  - destruct s as [|c1 s1]; [now exists ""|].
    cbn [String.length] in H. cbn [lstrip_rev_by].
    destruct (sp1 c1).
    { destruct (IH s1 ltac:(lia)) as [w Hw]. exists (String c1 w).
      cbn. now rewrite <- Hw. }
    destruct s1 as [|c2 s2]; [now exists ""|]. cbn [String.length] in H.
    destruct (isspace2 c2 c1).
    { destruct (IH s2 ltac:(lia)) as [w Hw]. exists (String c1 (String c2 w)).
      cbn. now rewrite <- Hw. }
    destruct s2 as [|c3 s3]; [now exists ""|]. cbn [String.length] in H.
    destruct (isspace3 c3 c2 c1); [|now exists ""].
    destruct (IH s3 ltac:(lia)) as [w Hw].
    exists (String c1 (String c2 (String c3 w))). cbn. now rewrite <- Hw.
Qed.

(** The trimmed text is a part of the text. *)
Lemma strip_by_part (s : string) :
  exists before after, s = before ++ strip_by sp1 s ++ after.
Proof.
  unfold strip_by.
  destruct (lstrip_by_suffix (String.length s) s (le_n _)) as [w Hw].
  set (t := lstrip_by sp1 s) in *.
  destruct (lstrip_rev_by_suffix _ (PyStr.rev t) (le_n _)) as [v Hv].
  exists w, (PyStr.rev v).
  rewrite <- rev_app, <- Hv, rev_involutive. exact Hw.
Qed.

(** Trimming a trimmed text changes nothing. *)
Lemma strip_by_idempotent (s : string) :
  strip_by sp1 (strip_by sp1 s) = strip_by sp1 s.
Proof.
  unfold strip_by. set (t := lstrip_by sp1 s).
  assert (T : lstrip_by sp1 t = t)
    by (apply (lstrip_by_idempotent (String.length s)); lia).
  destruct (lstrip_rev_by_suffix _ (PyStr.rev t) (le_n _)) as [v Hv].
  set (u := lstrip_rev_by sp1 (PyStr.rev t)) in *.
  assert (P : lstrip_by sp1 (PyStr.rev u) = PyStr.rev u).
  { apply (lstrip_by_prefix _ (PyStr.rev v)).
    rewrite <- rev_app, <- Hv, rev_involutive. exact T. }
  rewrite P, rev_involutive. f_equal.
  apply (lstrip_rev_by_idempotent (String.length (PyStr.rev t))). lia.
Qed.

End Strip.

Lemma header_pairs_in (lines : list string) (kv : string * string) :
  In kv (header_pairs lines) ->
  exists line name value,
    In line lines /\
    partition ":"%char (strip line) = (name, Some value) /\
    kv = (strip name, strip value).
Proof.
  induction lines as [|line rest IH]; cbn [header_pairs]; [intros []|].
  destruct (String.eqb (strip line) ""); [intros []|].
  unfold header_pair at 1.
  destruct (partition ":"%char (strip line)) as [name [value|]] eqn:P.
  - intros [<-|H].
    + exists line, name, value. repeat split; [now left|exact P].
    + destruct (IH H) as (l & n & v & I & Q & ->).
      exists l, n, v. repeat split; [now right|exact Q].
  - intros H. destruct (IH H) as (l & n & v & I & Q & ->).
    exists l, n, v. repeat split; [now right|exact Q].
Qed.

(** X18: the header names and values of a parsed request carry no white
    space at either end, and a name holds no colon: a header line is cut at
    its first colon and both sides are trimmed, so that the colons of a
    value stay in the value. *)
Theorem header_names_and_values_trimmed
  (request_text : string) (r : HTTPRequest) (name value : string) :
  parse_request HTTPRequest_init request_text = Ok r ->
  Dict.get name (headers r) = Some value ->
  strip name = name /\ strip value = value /\ contains ":" name = false.
Proof.
  intros E G.
  destruct (parse_request_fields _ _ E) as (_ & _ & _ & _ & _ & H & _).
  rewrite H, header_block_pairs, fold_set_get in G.
  destruct (List.find _ _) as [kv|] eqn:F; [|discriminate G].
  injection G as <-.
  apply find_some in F. destruct F as [I K].
  apply String.eqb_eq in K. subst name.
  apply in_rev in I.
  destruct (header_pairs_in _ _ I) as (line & n & v & _ & P & ->).
  cbn [fst snd]. unfold strip.
  rewrite !strip_by_idempotent. split; [reflexivity|]. split; [reflexivity|].
  apply (partition_Some ":"%char) in P. destruct P as [_ C].
  destruct (strip_by_part isspace1 n) as (a & b & D).
  rewrite D, !(contains_char_app ":"%char) in C.
  apply orb_false_elim in C. destruct C as [_ C].
  apply orb_false_elim in C. now destruct C.
Qed.

Lemma header_names_and_values_trimmed_witness :
  exists r,
    parse_request HTTPRequest_init padded_header_request = Ok r /\
    Dict.get "X-Token" (headers r) = Some "abc:def" /\
    strip "X-Token" = "X-Token" /\ strip "abc:def" = "abc:def" /\
    contains ":" "X-Token" = false.
Proof.
  eexists. split; [reflexivity|]. split; [reflexivity|].
  apply (header_names_and_values_trimmed padded_header_request _ _ _ eq_refl).
  reflexivity.
Defined.
